(** * Sales-compensation agent: intent routing and handlers

    A shallow embedding of [graph.py], [src/contest_agent.py] and
    [src/ticket_agent.py].  Conversation states and the update dictionaries
    returned by the handlers are finite maps from field names to Python
    values.  Every call that leaves the handler (the chat model, the message
    builder, the calendar, the file holding the contest URL, the mailer) is a
    node of a program tree, interpreted against an arbitrary stateful
    environment; an exception raised by such a call propagates, as the
    handlers contain no [try]. *)

From Stdlib Require Import String Ascii List Bool.
From stdpp Require Import base option list gmap strings fin_maps.

Local Open Scope string_scope.

(** ** Python values and strings *)

(** The values that occur in a conversation state: [str] and [None]
    ([Optional[str]] fields of the structured outputs end up there). *)
Inductive value :=
| VNone
| VStr (s : string).

#[global] Instance value_eq_dec : EqDecision value.
Proof. solve_decision. Defined.

Definition of_optional (o : option string) : value :=
  match o with
  | Some s => VStr s
  | None => VNone
  end.

(** [str(v)], as used by f-string interpolation. *)
Definition py_str (v : value) : string :=
  match v with
  | VNone => "None"
  | VStr s => s
  end.

(** The characters that a Rocq string literal cannot hold directly. *)
Definition nl : string := String "010"%char EmptyString.
Definition dq : string := String "034"%char EmptyString.

(** [x in xs] on a Python list: equality with some element. *)
Definition py_in (x : value) (xs : list string) : bool :=
  existsb (fun c => bool_decide (x = VStr c)) xs.

(** A conversation state ([AgentState], or the plain [dict] the agents under
    [src/] receive) and the partial dictionary a node returns. *)
Abbreviation AgentState := (gmap string value).
Abbreviation update := (gmap string value).

(** ** Structured outputs (the pydantic models) *)

Module Category.
Record t := { category : string }.
End Category.

Module PolicyResponse.
Record t := { policy : string; response : string }.
End PolicyResponse.

Module CommissionResponse.
Record t := { commission : string; calculation : string; response : string }.
End CommissionResponse.

Module TicketResponse.
Record t := { response : string; createTicket : bool }.
End TicketResponse.

Module TicketEmail.
Record t := { response : string; htmlEmail : string }.
End TicketEmail.

(** What the sources import and use without defining: the [datetime] type,
    the value [handle_appointment_request] returns together with its [str()]
    rendering, and the pure [markdown2.markdown]. *)
Class Collaborators := {
  datetime : Type;
  slots : Type;
  str_slots : slots -> string;
  markdown : string -> string
}.

Module ContestDecision.
Section Model.
Context `{Collaborators}.
Record t := {
  nextsteps : string;
  decision : string;
  timeslot : option datetime;
  email : option string;
  name : option string
}.
End Model.
End ContestDecision.

(** ** Calls that leave the handler *)

Inductive message :=
| SystemMessage (content : string)
| HumanMessage (content : value)
| AIMessage (content : string).

(** [m.content] *)
Definition content (m : message) : value :=
  match m with
  | SystemMessage c => VStr c
  | HumanMessage c => c
  | AIMessage c => VStr c
  end.

Inductive schema :=
| Category_
| PolicyResponse_
| CommissionResponse_
| ContestDecision_
| TicketResponse_
| TicketEmail_.

Inductive exn :=
| KeyError (key : string)
| ValueError (what : string)
| ValidationError (what : string)
| InvalidUpdateError (what : string)
| GraphRecursionError
| Raised (what : string).

Inductive result (A : Type) :=
| Ok (a : A)
| Err (e : exn).
Arguments Ok {A} a.
Arguments Err {A} e.

Section Calls.
Context `{Collaborators}.

Definition instance (s : schema) : Type :=
  match s with
  | Category_ => Category.t
  | PolicyResponse_ => PolicyResponse.t
  | CommissionResponse_ => CommissionResponse.t
  | ContestDecision_ => ContestDecision.t
  | TicketResponse_ => TicketResponse.t
  | TicketEmail_ => TicketEmail.t
  end.

Inductive call :=
| StructuredInvoke (s : schema) (messages : list message)
    (* self.model.with_structured_output(S).invoke(messages) *)
| ModelInvoke (prompt : string)
    (* self.model.invoke(prompt) *)
| CreateLlmMessage (prompt : string)
    (* create_llm_message(prompt) *)
| HandleAppointmentRequest
    (* handle_appointment_request() *)
| BookAppointment (selected_slot : option datetime) (user_email : option string)
    (* book_appointment(selected_slot, user_email) *)
| OpenRead (path : string)
    (* open(path, 'r').read() *)
| SendEmail (from_email : string) (to_email : option string)
            (subject html_content : string).
    (* send_email(from_email, to_email, subject, html_content) *)

Definition resp (c : call) : Type :=
  match c with
  | StructuredInvoke s _ => instance s
  | ModelInvoke _ => message
  | CreateLlmMessage _ => list message
  | HandleAppointmentRequest => slots
  | BookAppointment _ _ => value
  | OpenRead _ => string
  | SendEmail _ _ _ _ => unit
  end.

(** ** Programs *)

Inductive prog (A : Type) :=
| Ret (a : A)
| Raise (e : exn)
| Out (line : string) (k : prog A)
| Call (c : call) (k : resp c -> prog A).
Arguments Ret {A} a.
Arguments Raise {A} e.
Arguments Out {A} line k.
Arguments Call {A} c k.

Fixpoint bind {A B} (p : prog A) (f : A -> prog B) : prog B :=
  match p with
  | Ret a => f a
  | Raise e => Raise e
  | Out s k => Out s (bind k f)
  | Call c k => Call c (fun x => bind (k x) f)
  end.

Definition print (s : string) : prog unit := Out s (Ret tt).
Definition perform (c : call) : prog (resp c) := Call c Ret.

(** [state[key]] *)
Definition getitem (state : AgentState) (key : string) : prog value :=
  match state !! key with
  | Some v => Ret v
  | None => Raise (KeyError key)
  end.

(** [state.get(key, default)] *)
Definition get (state : AgentState) (key : string) (default : value) : value :=
  match state !! key with
  | Some v => v
  | None => default
  end.

(** [HumanMessage(content=v)]: the content of a message is validated when
    the message is built, and [None] is no content. *)
Definition human_message (content : value) : prog message :=
  match content with
  | VStr s => Ret (HumanMessage (VStr s))
  | VNone => Raise (ValidationError "HumanMessage content")
  end.

(** ** Running a program against an environment *)

Inductive event :=
| Printed (line : string)
| Called (c : call) (r : result (resp c)).

Definition env (W : Type) : Type := forall c : call, W -> result (resp c) * W.

Fixpoint run {W A} (h : env W) (p : prog A) (w : W)
  : result A * W * list event :=
  match p with
  | Ret a => (Ok a, w, [])
  | Raise e => (Err e, w, [])
  | Out s k =>
      let '(r, w', t) := run h k w in (r, w', Printed s :: t)
  | Call c k =>
      match h c w with
      | (Ok x, w') =>
          let '(r, w'', t) := run h (k x) w' in (r, w'', Called c (Ok x) :: t)
      | (Err e, w') => (Err e, w', [Called c (Err e)])
      end
  end.

End Calls.

Arguments Ret {_ A} a.
Arguments Raise {_ A} e.
Arguments Out {_ A} line k.
Arguments Call {_ A} c k.

Declare Scope prog_scope.
Delimit Scope prog_scope with prog.
Notation "x <- p ;; q" := (bind p (fun x => q))
  (at level 100, p at next level, right associativity) : prog_scope.
Notation "p ;; q" := (bind p (fun _ => q))
  (at level 100, right associativity) : prog_scope.
Local Open Scope prog_scope.

(** ** The part of langgraph the orchestrator relies on

    A [StateGraph] collects nodes, one entry point, conditional edges and
    plain edges; [compile] checks that every name used is a registered node;
    running the compiled graph executes the entry node and then follows the
    edges, merging each returned dictionary into the state key by key, until
    [END] is reached or the recursion limit is exhausted.  A node that returns
    [None] leaves the state as it is.  Of the input only the keys of the
    schema are taken, and an input that has none of them is refused before
    any node is run. *)

(** [langgraph.graph.END] *)
Definition END : string := "__end__".

(** The keys of [AgentState], the schema that the graph is built on. *)
Definition AgentState_keys : list string :=
  ["agent"; "initialMessage"; "responseToUser"; "lnode"; "category"].

Module StateGraph.
Section Graph.
Context `{Collaborators}.

Record t := {
  nodes : gmap string (AgentState -> prog (option update));
  entry_point : option string;
  branches : gmap string (AgentState -> prog value);
  edges : list (string * string)
}.









Definition apply_update (out : option update) (state : AgentState)
  : AgentState :=
  match out with
  | Some u => u ∪ state
  | None => state
  end.

Definition target (key : string) : option string :=
  if bool_decide (key = END) then None else Some key.

(** The node to run after [current], or [None] when the run is over. *)
Definition successor (g : t) (current : string) (state : AgentState)
  : prog (option string) :=
  match branches g !! current with
  | Some path =>
      r <- path state ;;
      match r with
      | VStr key => Ret (target key)
      | VNone => Raise (ValueError "branch did not return a node name")
      end
  | None =>
      match find (fun e => bool_decide (fst e = current)) (edges g) with
      | Some e => Ret (target (snd e))
      | None => Ret None
      end
  end.

Fixpoint steps (g : t) (limit : nat) (current : string) (state : AgentState)
  : prog AgentState :=
  match limit with
  | O => Raise GraphRecursionError
  | S limit' =>
      match nodes g !! current with
      | None => Raise (ValueError ("unknown node: " ++ current))
      | Some action =>
          out <- action state ;;
          let state' := apply_update out state in
          nxt <- successor g current state' ;;
          match nxt with
          | None => Ret state'
          | Some key => steps g limit' key state'
          end
      end
  end.

Definition recursion_limit : nat := 25.

(** The part of the input that the schema has a key for. *)
Definition restrict (input : AgentState) : AgentState :=
  filter (fun kv => fst kv ∈ AgentState_keys) input.

(** [graph.invoke(input)] *)
Definition invoke (g : t) (input : AgentState) : prog AgentState :=
  let state := restrict input in
  if decide (state = ∅) then
    Raise (InvalidUpdateError "input has no key of the state")
  else
    match entry_point g with
    | Some e => steps g recursion_limit e state
    | None => Raise (ValueError "no entry point")
    end.

End Graph.
End StateGraph.

(** ** graph.py *)

Definition VALID_CATEGORIES : list string :=
  ["policy"; "commission"; "contest"; "ticket"; "clarify"].

Module salesCompAgent.
Section Methods.
Context `{Collaborators}.

Definition classifier_prompt : string :=
  "
        You are an expert at customer service in sales operations. Please classify the customer
        requests as follows:
        1) If the request is a question about sales policies, category is 'policy'
        2) If the request is a question about user's commissions, category is 'commission'
        3) If the request is a question about contests, category is 'contest'
        4) If the request is a question about tickets, category is 'ticket'
        5) Otherwise ask the user to clarify, category is 'clarify'
        ".

Definition initial_classifier (state : AgentState) : prog update :=
  print "initial classifier" ;;
  initialMessage <- getitem state "initialMessage" ;;
  human <- human_message initialMessage ;;
  llm_response <- perform (StructuredInvoke Category_
                    [SystemMessage classifier_prompt; human]) ;;
  let category := Category.category llm_response in
  print ("category is " ++ category) ;;
  Ret {[ "lnode" := VStr "initial_classifier";
         "responseToUser" := VStr "Classifier successful";
         "category" := VStr category ]}.

Definition main_router (state : AgentState) : prog value :=
  my_category <- getitem state "category" ;;
  if py_in my_category VALID_CATEGORIES then
    Ret my_category
  else
    print ("unknown category: " ++ py_str my_category) ;;
    Ret (VStr END).

Definition POLICY_PROMPT : string :=
  "
        You are a Sales Compensation Policy expert. You understand four policies related
        sales compensation. Based on user's query, you would decide which policy to use. 
        The polices are:
        1) Minimum commission guarantee
        2) Air cover bonus
        3) Windfall activation
        4) Leave of absence

        Please provide user response as well as the policy used to decide.      
        ".

Definition policy_agent (state : AgentState) : prog update :=
  print "policy agent" ;;
  initialMessage <- getitem state "initialMessage" ;;
  human <- human_message initialMessage ;;
  llm_response <- perform (StructuredInvoke PolicyResponse_
                    [SystemMessage POLICY_PROMPT; human]) ;;
  let policy := PolicyResponse.policy llm_response in
  let response := PolicyResponse.response llm_response in
  print ("Policy is: " ++ policy ++ ", Response is: " ++ response) ;;
  Ret {[ "lnode" := VStr "initial_classifier";
         "responseToUser" :=
           VStr (response ++ " " ++ nl ++ nl ++ " Source: " ++ policy);
         "category" := VStr policy ]}.

Definition COMMISSION_PROMPT : string :=
  "
        You are a Sales Commissions expert. Users will ask you about what their commission
        will be for a particular deal. You can assume their on-target incentive to be $100000
        and their annual quota to be $2000000. Also note that Commission is equal to on-target
        incentive divided by annual quota. 
        
        Please provide user commission as well as explain how you computed it.      
        ".

Definition commission_agent (state : AgentState) : prog update :=
  print "commission agent" ;;
  initialMessage <- getitem state "initialMessage" ;;
  human <- human_message initialMessage ;;
  llm_response <- perform (StructuredInvoke CommissionResponse_
                    [SystemMessage COMMISSION_PROMPT; human]) ;;
  let commission := CommissionResponse.commission llm_response in
  let calculation := CommissionResponse.calculation llm_response in
  let response := CommissionResponse.response llm_response in
  print ("Commission is " ++ commission ++ ", Calculation is " ++ calculation
         ++ ", Response is " ++ response) ;;
  Ret {[ "lnode" := VStr "initial_classifier";
         "responseToUser" :=
           VStr (response ++ " " ++ nl ++ nl ++ " Source: " ++ calculation
                 ++ "." ++ nl ++ " Commission: " ++ commission);
         "category" := VStr calculation ]}.

(** The three placeholders: a [print], and the implicit [return None]. *)
Definition contest_agent (state : AgentState) : prog (option update) :=
  print "contest agent" ;;
  Ret None.

Definition ticket_agent (state : AgentState) : prog (option update) :=
  print "ticket agent" ;;
  Ret None.

Definition clarify_agent (state : AgentState) : prog (option update) :=
  print "clarify agent" ;;
  Ret None.


(** [self.graph], as [__init__] leaves it. *)
Definition graph : StateGraph.t :=
  {| StateGraph.nodes :=
       <["clarify" := clarify_agent]>
       (<["ticket" := ticket_agent]>
       (<["contest" := contest_agent]>
       (<["commission" :=
            fun st => u <- commission_agent st ;; Ret (Some u)]>
       (<["policy" := fun st => u <- policy_agent st ;; Ret (Some u)]>
       (<["classifier" :=
            fun st => u <- initial_classifier st ;; Ret (Some u)]> ∅)))));
     StateGraph.entry_point := Some "classifier";
     StateGraph.branches := <["classifier" := main_router]> ∅;
     StateGraph.edges :=
       [("policy", END); ("commission", END); ("contest", END);
        ("ticket", END); ("clarify", END)] |}.

End Methods.
End salesCompAgent.

(** ** src/contest_agent.py *)

Module ContestAgent.
Section Methods.
Context `{Collaborators}.

Definition get_available_slots : prog slots :=
  available_slots <- perform HandleAppointmentRequest ;;
  Ret available_slots.

Definition time_slot_prompt (available_slots : slots) : string :=
  "
         You are an appointment booking scheduler. Present the following slots in a brief, easy-to-read format. Keep 
         the message compact but always maintain a friendly, professional, and helpful tone throughout the interaction.

        Available slots: "
    ++ str_slots available_slots
    ++ "

        Instructions:
        1. Tell the user that they need to book a consultation with Sales Comp team and you will help them book an appointment 
        2. List the slots in a clean and easy to read format
        3. Keep your message under 100 words
        4. Simply ask "
    ++ dq
    ++ "Please choose a time slot."
    ++ dq
    ++ "
        ".

Definition list_available_slots (available_slots : slots) : prog value :=
  response <- perform (ModelInvoke (time_slot_prompt available_slots)) ;;
  Ret (content response).

Definition confirm_appointment (selected_slot : option datetime)
    (user_email : option string) : prog value :=
  result <- perform (BookAppointment selected_slot user_email) ;;
  Ret result.

Definition get_contest_url : prog string :=
  contest_url <- perform (OpenRead "contesturl.txt") ;;
  Ret contest_url.

Definition contest_prompt : string :=
  "
        You are a Sales Commissions expert. Users will ask you about starting a SPIF or sales contest. Maintain a 
        friendly, professional, and helpful tone.

        STEP 1: VALIDATE USER INFO
        1. Ask the user to provide their full name and email address to proceed. Update 'decision' to [askforuserinfo] and 'nextsteps' to politely ask the user for name and email address 
        2. If you HAVE all the information (Full name and Email address), categorize user's query per categories in Step 2.
        3. If you DON'T HAVE all the information (Full name and Email address), politely, ask the user for this information.

        STEP 2: UPDATE 'decision' to [BookAppointment]. 

        STEP 3: If user has provided a preferred slot, UPDATE 'decision' to [ConfirmAppointment]

        STEP 4: If the appointment has been confirmed, UPDATE 'decision' to [AppointmentComplete], and explain the next steps using instructions in Step 5

        STEP 5: EXPLAIN THE NEXT STEPS AS DESCRIBED BELOW IN PLAIN ENGLISH
        a. Tell them that the Sales Comp team representative is looking forward to meeting them
        b. Inform them that the Intake Form has been sent via email. Ask them to complete the Intake Form before the meeting
        c. After the meeting, Sales Comp team will send the proposal to the President of Sales and the CFO for approval
        d. No verbal or written communication should be sent to the field without formal approval is complete
        e. If approved, Sales Comp team will prepare launch documentation in collaboration with the Communications team

        STEP 6: END THE CONVERSATION, update the 'nextstep' by wishing the user goodluck and ask them if there is anything
        else that they need help with.
        
        
        ".

Definition generate_contest_response : prog ContestDecision.t :=
  llm_messages <- perform (CreateLlmMessage contest_prompt) ;;
  llm_response <- perform (StructuredInvoke ContestDecision_ llm_messages) ;;
  let full_response := llm_response in
  Ret full_response.

Definition contest_agent (state : AgentState) : prog update :=
  llm_response <- generate_contest_response ;;
  if String.eqb (ContestDecision.decision llm_response) "BookAppointment" then
    available_slots <- get_available_slots ;;
    user_response <- list_available_slots available_slots ;;
    Ret {[ "lnode" := VStr "contest_agent";
           "responseToUser" := user_response;
           "category" := VStr "contest";
           "name" := of_optional (ContestDecision.name llm_response);
           "email" := of_optional (ContestDecision.email llm_response) ]}
  else
    user_response <-
      (if String.eqb (ContestDecision.decision llm_response)
                     "ConfirmAppointment" then
         user_response <- confirm_appointment
                            (ContestDecision.timeslot llm_response)
                            (ContestDecision.email llm_response) ;;
         let subject := "Please complete the SPIF/Sales Contest Intake Form" in
         contest_url <- get_contest_url ;;
         let html_content := markdown contest_url in
         perform (SendEmail "malihajburney@gmail.com"
                            (ContestDecision.email llm_response)
                            subject html_content) ;;
         Ret user_response
       else if String.eqb (ContestDecision.decision llm_response)
                          "AppointmentComplete" then
         Ret (VStr (ContestDecision.nextsteps llm_response))
       else
         Ret (VStr (ContestDecision.nextsteps llm_response))) ;;
    Ret {[ "lnode" := VStr "contest_agent";
           "responseToUser" := user_response;
           "category" := VStr "contest" ]}.

End Methods.
End ContestAgent.

(** ** src/ticket_agent.py *)

Module TicketAgent.
Section Methods.
Context `{Collaborators}.

Definition ticket_prompt (user_query : value) : string :=
  "
        You are a Sales Compensation Support Assistant. Your role is to collect necessary information and decide if a support 
        ticket needs to be created or not.

        USER QUERY: "
    ++ dq
    ++ py_str user_query
    ++ dq
    ++ "

        REQUIRED INFORMATION:
        - Full Name
        - Email Address (must be valid email format)
        - Issue Description

        INSTRUCTIONS:
        1. Check conversation history to confirm if ticket has already been created:
           - If a ticket has already been created for this issue, set createTicket=False and politely ask if they need anything else
        
        2. Parse user information:
           - Extract Full Name (if provided)
           - Extract and validate Email Address (if provided)
           - Extract Issue Description from query
        
        3. Determine next action:
           IF all required information is present:
           - Set createTicket=True
           - Format response: "
    ++ dq
    ++ "Thank you [First Name], I've created a support ticket for the Sales Compensation team. They will contact you at [email]. Is there anything else I can help you with?"
    ++ dq
    ++ "
           
           IF information is missing:
           - Set createTicket=False
           - Format response: "
    ++ dq
    ++ "To help you better, I need your [missing information]. This will allow me to create a support ticket for our Sales Compensation team."
    ++ dq
    ++ "

        OUTPUT REQUIREMENTS:
        - response: Your message to the user
        - createTicket: Boolean (True only if all required information is present and no ticket exists)

        Remember: Only create new tickets when you have ALL required information and no existing ticket.
       
        ".

Definition generate_ticket_response (state : AgentState)
  : prog TicketResponse.t :=
  let user_query := get state "initialMessage" (VStr "") in
  llm_messages <- perform (CreateLlmMessage (ticket_prompt user_query)) ;;
  llm_response <- perform (StructuredInvoke TicketResponse_ llm_messages) ;;
  let full_response := llm_response in
  Ret full_response.

Definition ticket_email_prompt : string :=
  "
        You are creating a support ticket email for the Sales Compensation team. You have realized that you are not able to solve user's concern. 
        
        Create a well-formatted HTML email as a well-formatted html that can be sent directly to the Sales Comp Support team.
        1. User Details: 
           - User's Full name
           - User's Email address
        3. Issue description

        Format Requirements:
        - Use proper HTML tags (<p>, <br>, etc.)
        - Make important information visually stand out
        - Use "
    ++ dq
    ++ "Sales Comp Agent"
    ++ dq
    ++ " as your signature at the end of email
        - Keep it professional and concise

        Please provide the email content in the field "
    ++ dq
    ++ "htmlEmail"
    ++ dq
    ++ ".

        ".

Definition generate_ticket_email (state : AgentState) : prog string :=
  llm_messages <- perform (CreateLlmMessage ticket_email_prompt) ;;
  llm_response <- perform (StructuredInvoke TicketEmail_ llm_messages) ;;
  let ticket_email_response := TicketEmail.htmlEmail llm_response in
  Ret ticket_email_response.

Definition ticket_agent (state : AgentState) : prog update :=
  full_response <- generate_ticket_response state ;;
  (if TicketResponse.createTicket full_response then
     ticket_email_response <- generate_ticket_email state ;;
     perform (SendEmail "malihajburney@gmail.com"
                        (Some "i_jahangir@hotmail.com")
                        "New Ticket from SalesCompAgent"
                        ticket_email_response)
   else
     Ret tt) ;;
  Ret {[ "lnode" := VStr "ticket_agent";
         "responseToUser" := VStr (TicketResponse.response full_response);
         "category" := VStr "ticket" ]}.

End Methods.
End TicketAgent.

(** ** Properties of programs *)

Section Properties.
Context `{Collaborators}.

(** [always P p]: whatever the environment answers, a value returned by [p]
    satisfies [P]. *)
Fixpoint always {A} (P : A -> Prop) (p : prog A) : Prop :=
  match p with
  | Ret a => P a
  | Raise _ => True
  | Out _ k => always P k
  | Call c k => forall x, always P (k x)
  end.

(** [no_raise p]: the program itself never raises; it can only fail by
    passing on an exception of the environment. *)
Fixpoint no_raise {A} (p : prog A) : Prop :=
  match p with
  | Ret _ => True
  | Raise _ => False
  | Out _ k => no_raise k
  | Call c k => forall x, no_raise (k x)
  end.

(** The calls to the mailer recorded in a trace. *)
Definition emails (t : list event)
  : list (string * option string * string * string) :=
  omap (fun ev =>
          match ev with
          | Called (SendEmail f t s b) _ => Some (f, t, s, b)
          | _ => None
          end) t.

(** [within E C P p]: whatever the environment answers, [p] raises by itself
    only exceptions in [E], makes only calls in [C] and returns only values
    in [P]. *)
Fixpoint within {A} (E : exn -> Prop) (C : call -> Prop) (P : A -> Prop)
    (p : prog A) : Prop :=
  match p with
  | Ret a => P a
  | Raise e => E e
  | Out _ k => within E C P k
  | Call c k => C c /\ forall x, within E C P (k x)
  end.

(** Every call recorded in a trace is in [C]. *)
Definition calls_in (C : call -> Prop) (t : list event) : Prop :=
  Forall (fun ev => match ev with
                    | Called c _ => C c
                    | Printed _ => True
                    end) t.

(** The structured completions of graph.py: the classifier's and those of
    the two handlers it implements. *)
Definition graph_call (c : call) : Prop :=
  match c with
  | StructuredInvoke Category_ _
  | StructuredInvoke PolicyResponse_ _
  | StructuredInvoke CommissionResponse_ _ => True
  | _ => False
  end.

End Properties.

(** The keys that every writer sets, and the two that the contest handler
    adds while an appointment is being arranged. *)
Definition core_keys : gset string :=
  {[ "lnode"; "responseToUser"; "category" ]}.
Definition contact_keys : gset string :=
  {[ "name"; "email" ]}.

(** The four policies that [POLICY_PROMPT] enumerates. *)
Definition POLICY_NAMES : list string :=
  ["Minimum commission guarantee"; "Air cover bonus";
   "Windfall activation"; "Leave of absence"].

(** ** A sequence of steps over one conversation state *)

(** The components that the design lets touch the state.  A writer's
    dictionary is merged into the state as the graph does it; the router
    returns a node name and no dictionary. *)
Inductive component :=
| Classifier
| Router
| Policy
| Commission
| Contest
| Ticket.

Section Conversation.
Context `{Collaborators}.

(** What a component hands back to the graph: a dictionary, or nothing. *)
Definition writes (c : component) (state : AgentState)
  : prog (option update) :=
  match c with
  | Classifier => u <- salesCompAgent.initial_classifier state ;; Ret (Some u)
  | Router => _ <- salesCompAgent.main_router state ;; Ret None
  | Policy => u <- salesCompAgent.policy_agent state ;; Ret (Some u)
  | Commission => u <- salesCompAgent.commission_agent state ;; Ret (Some u)
  | Contest => u <- ContestAgent.contest_agent state ;; Ret (Some u)
  | Ticket => u <- TicketAgent.ticket_agent state ;; Ret (Some u)
  end.

Definition step (c : component) (state : AgentState) : prog AgentState :=
  out <- writes c state ;;
  Ret (StateGraph.apply_update out state).

Fixpoint conversation (cs : list component) (state : AgentState)
  : prog AgentState :=
  match cs with
  | [] => Ret state
  | c :: cs' => state' <- step c state ;; conversation cs' state'
  end.

End Conversation.

(** ** A concrete environment

    One instance of the collaborators and one scripted environment, whose
    state counts the calls made so far, to run the handlers on. *)

Definition sample : Collaborators :=
  {| datetime := nat;
     slots := list string;
     str_slots := String.concat ", ";
     markdown := fun s => "<p>" ++ s ++ "</p>" |}.

Definition scripted (answers : forall s : schema, result (@instance sample s))
  : @env sample nat :=
  fun c n =>
    (match c return result (@resp sample c) with
     | StructuredInvoke s _ => answers s
     | ModelInvoke _ => Ok (AIMessage "Mon 10:00 or Tue 14:00. Please choose a time slot.")
     | CreateLlmMessage prompt =>
         Ok [SystemMessage prompt; HumanMessage (VStr "I am Ada, ada@example.com")]
     | HandleAppointmentRequest => Ok ["Mon 10:00"; "Tue 14:00"]
     | BookAppointment _ _ => Ok (VStr "Appointment booked")
     | OpenRead _ => Ok "https://example.com/intake"
     | SendEmail _ _ _ _ => Ok tt
     end, S n).

Definition answers (category policy decision : string) (createTicket : bool)
    (s : schema) : result (@instance sample s) :=
  match s with
  | Category_ => Ok {| Category.category := category |}
  | PolicyResponse_ =>
      Ok {| PolicyResponse.policy := policy;
            PolicyResponse.response := "You are guaranteed a minimum." |}
  | CommissionResponse_ =>
      Ok {| CommissionResponse.commission := "5000";
            CommissionResponse.calculation := "100000 * 0.05";
            CommissionResponse.response := "Your commission is $5000." |}
  | ContestDecision_ =>
      Ok {| ContestDecision.nextsteps := "Good luck!";
            ContestDecision.decision := decision;
            ContestDecision.timeslot := None;
            ContestDecision.email := None;
            ContestDecision.name := None |}
  | TicketResponse_ =>
      Ok {| TicketResponse.response := "Thank you Ada.";
            TicketResponse.createTicket := createTicket |}
  | TicketEmail_ =>
      Ok {| TicketEmail.response := "drafted";
            TicketEmail.htmlEmail := "<p>Ada, ada@example.com: payout missing</p>" |}
  end.

(** The same answers, with a decision that has collected the contact. *)
Definition contact_answers (decision : string) (s : schema)
  : result (@instance sample s) :=
  match s return result (@instance sample s) with
  | ContestDecision_ =>
      Ok {| ContestDecision.nextsteps := "Please pick a slot.";
            ContestDecision.decision := decision;
            ContestDecision.timeslot := None;
            ContestDecision.email := Some "ada@example.com";
            ContestDecision.name := Some "Ada" |}
  | s' => answers "contest" "Leave of absence" decision false s'
  end.

Definition question : AgentState :=
  {[ "initialMessage" := VStr "What is minimum commission guarantee?" ]}.

Definition model (category policy decision : string) (createTicket : bool)
  : @env sample nat :=
  scripted (answers category policy decision createTicket).

(** The scripted environment, except that the calls picked by [fails] raise. *)
Definition failing (fails : @call sample -> option exn)
    (answers : forall s : schema, result (@instance sample s))
  : @env sample nat :=
  fun c n =>
    match fails c with
    | Some e => (Err e, S n)
    | None => scripted answers c n
    end.

(** ** Reasoning about runs *)

Section Runs.
Context `{Collaborators} {W : Type} (h : env W).

Lemma run_bind {A B} (p : prog A) (f : A -> prog B) (w : W) :
  run h (bind p f) w =
  match run h p w with
  | (Ok a, w1, t1) =>
      let '(r, w2, t2) := run h (f a) w1 in (r, w2, (t1 ++ t2)%list)
  | (Err e, w1, t1) => (Err e, w1, t1)
  end.
Proof.
  revert w. induction p as [a|e|s k IH|c k IH]; intros w; cbn.
  - by destruct (run h (f a) w) as [[r w2] t2].
  - done.
  - rewrite IH. destruct (run h k w) as [[[a|e] w1] t1]; [|done].
    by destruct (run h (f a) w1) as [[r w2] t2].
  - destruct (h c w) as [[x|e] w0]; [|done].
    rewrite IH. destruct (run h (k x) w0) as [[[a|e] w1] t1]; [|done].
    by destruct (run h (f a) w1) as [[r w2] t2].
Qed.

Lemma always_bind {A B} (Q : B -> Prop) (p : prog A) (f : A -> prog B) :
  always (fun a => always Q (f a)) p -> always Q (bind p f).
Proof. induction p; cbn; auto. Qed.

Lemma always_mono {A} (P Q : A -> Prop) (p : prog A) :
  (forall a, P a -> Q a) -> always P p -> always Q p.
Proof. intros HPQ. induction p; cbn; auto. Qed.

Lemma always_run {A} (P : A -> Prop) (p : prog A) w a w' t :
  always P p -> run h p w = (Ok a, w', t) -> P a.
Proof.
  revert w w' t. induction p as [b|e|s k IH|c k IH]; intros w w' t; cbn.
  - intros HP [= <- _ _]. exact HP.
  - done.
  - intros HP. destruct (run h k w) as [[r w1] t1] eqn:E.
    intros [= -> _ _]. eauto.
  - intros HP. destruct (h c w) as [[x|e] w0]; [|done].
    destruct (run h (k x) w0) as [[r w1] t1] eqn:E.
    intros [= -> _ _]. eauto.
Qed.

Lemma no_raise_bind {A B} (p : prog A) (f : A -> prog B) :
  no_raise p -> (forall a, no_raise (f a)) -> no_raise (bind p f).
Proof. induction p; cbn; auto. Qed.

Lemma no_raise_run {A} (p : prog A) w e w' t :
  no_raise p -> run h p w = (Err e, w', t) ->
  exists c, last t = Some (Called c (Err e)).
Proof.
  revert w w' t. induction p as [b|e0|s k IH|c k IH]; intros w w' t; cbn.
  - done.
  - done.
  - intros Hk. destruct (run h k w) as [[r w1] t1] eqn:E.
    intros [= -> _ <-]. destruct (IH _ _ _ Hk E) as [c Hc].
    exists c. destruct t1; [done|exact Hc].
  - intros Hk. destruct (h c w) as [[x|e1] w0].
    + destruct (run h (k x) w0) as [[r w1] t1] eqn:E.
      intros [= -> _ <-]. destruct (IH _ _ _ _ (Hk x) E) as [c' Hc].
      exists c'. destruct t1; [done|exact Hc].
    + intros [= -> _ <-]. by exists c.
Qed.

End Runs.

(** ** The router *)

Lemma py_in_spec (x : value) (xs : list string) :
  py_in x xs = true <-> x ∈ VStr <$> xs.
Proof.
  unfold py_in. rewrite existsb_exists, list_elem_of_fmap.
  split.
  - intros (c & Hc & Hx). apply bool_decide_eq_true in Hx.
    exists c. split; [done|]. by apply list_elem_of_In.
  - intros (c & Hx & Hc). exists c. split; [by apply list_elem_of_In|].
    by apply bool_decide_eq_true.
Qed.

Section Router.
Context `{Collaborators} {W : Type} (h : env W).

Lemma run_main_router (state : AgentState) (c : value) (w : W) :
  state !! "category" = Some c ->
  run h (salesCompAgent.main_router state) w =
    if py_in c VALID_CATEGORIES
    then (Ok c, w, [])
    else (Ok (VStr END), w, [Printed ("unknown category: " ++ py_str c)]).
Proof.
  intros Hc. unfold salesCompAgent.main_router, getitem. rewrite Hc.
  cbn [bind]. by destruct (py_in c VALID_CATEGORIES).
Qed.

(** C1: for a state that has a category, [main_router] returns that category
    when it is one of the five valid ones and [END] otherwise; the outcome
    does not depend on the environment, which is left as it was, and no
    collaborator is called (the only trace is the diagnostic line of the
    unknown case). *)
Theorem main_router_total (state : AgentState) (c : value) (w : W) :
  state !! "category" = Some c ->
  (c ∈ VStr <$> VALID_CATEGORIES ->
   run h (salesCompAgent.main_router state) w = (Ok c, w, [])) /\
  (c ∉ VStr <$> VALID_CATEGORIES ->
   run h (salesCompAgent.main_router state) w =
     (Ok (VStr END), w, [Printed ("unknown category: " ++ py_str c)])).
Proof.
  intros Hc. rewrite (run_main_router state c w Hc).
  split; intros Hin.
  - assert (E : py_in c VALID_CATEGORIES = true)
      by (apply py_in_spec; exact Hin).
    by rewrite E.
  - destruct (py_in c VALID_CATEGORIES) eqn:E; [|done].
    destruct Hin. apply (proj1 (py_in_spec c VALID_CATEGORIES) E).
Qed.

End Router.

(** ** The handlers of graph.py *)

(** [POLICY_NAMES] are the names as [POLICY_PROMPT] spells them. *)
Lemma POLICY_NAMES_in_prompt `{Collaborators} :
  Forall (fun policy =>
            exists i, index 0 policy salesCompAgent.POLICY_PROMPT = Some i)
         POLICY_NAMES.
Proof. repeat constructor; eexists; vm_compute; reflexivity. Qed.

Section GraphHandlers.
Context `{Collaborators} {W : Type} (h : env W).

(** C2, as amended: a state returned by [policy_agent] carries as category
    whatever string the model gave as [policy], unchecked, and as
    responseToUser the model's response followed by the attribution of that
    same string; and [policy_agent] returns exactly when the state holds a
    string as initial message and the one structured completion succeeds. *)
Theorem policy_agent_returns_model_policy
    (state : AgentState) (w w' : W) (upd : update) (t : list event) :
  run h (salesCompAgent.policy_agent state) w = (Ok upd, w', t) <->
  exists (m : string) (r : PolicyResponse.t),
    state !! "initialMessage" = Some (VStr m) /\
    h (StructuredInvoke PolicyResponse_
         [SystemMessage salesCompAgent.POLICY_PROMPT;
          HumanMessage (VStr m)]) w
      = (Ok r, w') /\
    t = [Printed "policy agent";
         Called (StructuredInvoke PolicyResponse_
                   [SystemMessage salesCompAgent.POLICY_PROMPT;
                    HumanMessage (VStr m)]) (Ok r);
         Printed ("Policy is: " ++ PolicyResponse.policy r
                  ++ ", Response is: " ++ PolicyResponse.response r)] /\
    upd = {[ "lnode" := VStr "initial_classifier";
             "responseToUser" :=
               VStr (PolicyResponse.response r ++ " " ++ nl ++ nl
                     ++ " Source: " ++ PolicyResponse.policy r);
             "category" := VStr (PolicyResponse.policy r) ]}.
Proof.
  unfold salesCompAgent.policy_agent, getitem, human_message, print, perform.
  destruct (state !! "initialMessage") as [[|m]|] eqn:Hm; cbn [bind run].
  - split; [done|]. by intros (m' & r' & [=] & _).
  - destruct (h _ w) as [[r|e] w1] eqn:Hr.
    + split.
      * intros [= <- <- <-]. by exists m, r.
      * intros (m' & r' & [= <-] & Hr' & -> & ->).
        rewrite Hr in Hr'. by injection Hr' as -> ->.
    + split; [done|].
      intros (m' & r' & [= <-] & Hr' & _). by rewrite Hr in Hr'.
  - split; [done|]. by intros (m' & r' & [=] & _).
Qed.

(** C8: a state returned by [commission_agent] has as responseToUser the
    model's response text followed by the model's [calculation] and
    [commission] strings, each copied as it came; the handler reaches that
    state through one structured completion and nothing else, so no value is
    computed on the way; and it returns exactly when the state holds a string
    as initial message and that completion succeeds. *)
Theorem commission_agent_combines_fields
    (state : AgentState) (w w' : W) (upd : update) (t : list event) :
  run h (salesCompAgent.commission_agent state) w = (Ok upd, w', t) <->
  exists (m : string) (r : CommissionResponse.t),
    state !! "initialMessage" = Some (VStr m) /\
    h (StructuredInvoke CommissionResponse_
         [SystemMessage salesCompAgent.COMMISSION_PROMPT;
          HumanMessage (VStr m)]) w
      = (Ok r, w') /\
    t = [Printed "commission agent";
         Called (StructuredInvoke CommissionResponse_
                   [SystemMessage salesCompAgent.COMMISSION_PROMPT;
                    HumanMessage (VStr m)]) (Ok r);
         Printed ("Commission is " ++ CommissionResponse.commission r
                  ++ ", Calculation is " ++ CommissionResponse.calculation r
                  ++ ", Response is " ++ CommissionResponse.response r)] /\
    upd = {[ "lnode" := VStr "initial_classifier";
             "responseToUser" :=
               VStr (CommissionResponse.response r ++ " " ++ nl ++ nl
                     ++ " Source: " ++ CommissionResponse.calculation r
                     ++ "." ++ nl
                     ++ " Commission: " ++ CommissionResponse.commission r);
             "category" := VStr (CommissionResponse.calculation r) ]}.
Proof.
  unfold salesCompAgent.commission_agent, getitem, human_message, print,
    perform.
  destruct (state !! "initialMessage") as [[|m]|] eqn:Hm; cbn [bind run].
  - split; [done|]. by intros (m' & r' & [=] & _).
  - destruct (h _ w) as [[r|e] w1] eqn:Hr.
    + split.
      * intros [= <- <- <-]. by exists m, r.
      * intros (m' & r' & [= <-] & Hr' & -> & ->).
        rewrite Hr in Hr'. by injection Hr' as -> ->.
    + split; [done|].
      intros (m' & r' & [= <-] & Hr' & _). by rewrite Hr in Hr'.
  - split; [done|]. by intros (m' & r' & [=] & _).
Qed.

(** What each writer of graph.py puts into [lnode]. *)
Lemma initial_classifier_lnode (state : AgentState) :
  always (fun upd => upd !! "lnode" = Some (VStr "initial_classifier"))
         (salesCompAgent.initial_classifier state).
Proof.
  unfold salesCompAgent.initial_classifier, getitem, human_message, print,
    perform.
  destruct (state !! "initialMessage") as [[|m]|]; cbn; [done| |done].
  by intros r.
Qed.

Lemma policy_agent_lnode (state : AgentState) :
  always (fun upd => upd !! "lnode" = Some (VStr "initial_classifier"))
         (salesCompAgent.policy_agent state).
Proof.
  unfold salesCompAgent.policy_agent, getitem, human_message, print,
    perform.
  destruct (state !! "initialMessage") as [[|m]|]; cbn; [done| |done].
  by intros r.
Qed.

Lemma commission_agent_lnode (state : AgentState) :
  always (fun upd => upd !! "lnode" = Some (VStr "initial_classifier"))
         (salesCompAgent.commission_agent state).
Proof.
  unfold salesCompAgent.commission_agent, getitem, human_message, print,
    perform.
  destruct (state !! "initialMessage") as [[|m]|]; cbn; [done| |done].
  by intros r.
Qed.

End GraphHandlers.

(** ** The contest handler *)

Section Contest.
Context `{Collaborators} {W : Type} (h : env W).

Lemma contest_agent_category (state : AgentState) :
  always (fun upd => upd !! "category" = Some (VStr "contest"))
         (ContestAgent.contest_agent state).
Proof.
  unfold ContestAgent.contest_agent, ContestAgent.generate_contest_response,
    ContestAgent.get_available_slots, ContestAgent.list_available_slots,
    ContestAgent.confirm_appointment, ContestAgent.get_contest_url, perform.
  cbn. intros msgs d.
  destruct (String.eqb (ContestDecision.decision d) "BookAppointment");
    [by cbn|].
  destruct (String.eqb (ContestDecision.decision d) "ConfirmAppointment");
    [by cbn|].
  by destruct (String.eqb (ContestDecision.decision d) "AppointmentComplete").
Qed.

Lemma contest_agent_lnode (state : AgentState) :
  always (fun upd => upd !! "lnode" = Some (VStr "contest_agent"))
         (ContestAgent.contest_agent state).
Proof.
  unfold ContestAgent.contest_agent, ContestAgent.generate_contest_response,
    ContestAgent.get_available_slots, ContestAgent.list_available_slots,
    ContestAgent.confirm_appointment, ContestAgent.get_contest_url, perform.
  cbn. intros msgs d.
  destruct (String.eqb (ContestDecision.decision d) "BookAppointment");
    [by cbn|].
  destruct (String.eqb (ContestDecision.decision d) "ConfirmAppointment");
    [by cbn|].
  by destruct (String.eqb (ContestDecision.decision d) "AppointmentComplete").
Qed.

Lemma contest_agent_no_raise (state : AgentState) :
  no_raise (ContestAgent.contest_agent state).
Proof.
  unfold ContestAgent.contest_agent, ContestAgent.generate_contest_response,
    ContestAgent.get_available_slots, ContestAgent.list_available_slots,
    ContestAgent.confirm_appointment, ContestAgent.get_contest_url, perform.
  cbn. intros msgs d.
  destruct (String.eqb (ContestDecision.decision d) "BookAppointment");
    [by cbn|].
  destruct (String.eqb (ContestDecision.decision d) "ConfirmAppointment");
    [by cbn|].
  by destruct (String.eqb (ContestDecision.decision d) "AppointmentComplete").
Qed.

(** C4: whatever decision the model returns, a record returned by the contest
    handler has category "contest"; and the handler returns one unless a
    collaborator raised, in which case that exception is what comes out. *)
Theorem contest_agent_category_is_contest (state : AgentState) (w : W) :
  (forall upd w' t,
     run h (ContestAgent.contest_agent state) w = (Ok upd, w', t) ->
     upd !! "category" = Some (VStr "contest")) /\
  (forall e w' t,
     run h (ContestAgent.contest_agent state) w = (Err e, w', t) ->
     exists c, last t = Some (Called c (Err e))).
Proof.
  split.
  - intros upd w' t Hrun.
    exact (always_run h _ _ _ _ _ _ (contest_agent_category state) Hrun).
  - intros e w' t Hrun.
    exact (no_raise_run h _ _ _ _ _ (contest_agent_no_raise state) Hrun).
Qed.

(** C5: when the structured decision is BookAppointment, the handler asks the
    scheduling collaborator for the slots, then has them formatted by a plain
    completion whose prompt carries the rendering of those slots after the
    words "Available slots: ", and returns the text of the reply as
    responseToUser together with the name and the email of the decision
    ([None] where the decision has none). *)
Theorem contest_agent_book_appointment
    (state : AgentState) (w w1 w2 w3 w4 : W) (msgs : list message)
    (d : ContestDecision.t) (available_slots : slots) (formatted : string) :
  h (CreateLlmMessage ContestAgent.contest_prompt) w = (Ok msgs, w1) ->
  h (StructuredInvoke ContestDecision_ msgs) w1 = (Ok d, w2) ->
  ContestDecision.decision d = "BookAppointment" ->
  h HandleAppointmentRequest w2 = (Ok available_slots, w3) ->
  h (ModelInvoke (ContestAgent.time_slot_prompt available_slots)) w3
    = (Ok (AIMessage formatted), w4) ->
  run h (ContestAgent.contest_agent state) w =
    (Ok {[ "lnode" := VStr "contest_agent";
           "responseToUser" := VStr formatted;
           "category" := VStr "contest";
           "name" := match ContestDecision.name d with
                     | Some name => VStr name
                     | None => VNone
                     end;
           "email" := match ContestDecision.email d with
                      | Some email => VStr email
                      | None => VNone
                      end ]},
     w4,
     [Called (CreateLlmMessage ContestAgent.contest_prompt) (Ok msgs);
      Called (StructuredInvoke ContestDecision_ msgs) (Ok d);
      Called HandleAppointmentRequest (Ok available_slots);
      Called (ModelInvoke (ContestAgent.time_slot_prompt available_slots))
             (Ok (AIMessage formatted))]) /\
  exists before after : string,
    forall sl : slots,
      ContestAgent.time_slot_prompt sl
      = before ++ "Available slots: " ++ str_slots sl ++ after.
Proof.
  intros Hmsgs Hd Hdec Hslots Hfmt. split.
  - unfold ContestAgent.contest_agent, ContestAgent.generate_contest_response,
      ContestAgent.get_available_slots, ContestAgent.list_available_slots,
      perform.
    cbn [bind run]. rewrite Hmsgs. cbn [bind run]. rewrite Hd, Hdec.
    cbn [bind run String.eqb Ascii.eqb Bool.eqb]. rewrite Hslots.
    cbn [bind run]. by rewrite Hfmt.
  - exists "
         You are an appointment booking scheduler. Present the following slots in a brief, easy-to-read format. Keep 
         the message compact but always maintain a friendly, professional, and helpful tone throughout the interaction.

        ".
    eexists. intros sl. unfold ContestAgent.time_slot_prompt. reflexivity.
Qed.

(** C10: in the ConfirmAppointment branch the optional timeslot and email of
    the decision go to the booking collaborator as they are, present or
    absent, and, once the booking and the reading of the contest URL have
    succeeded, the same email goes to the mailer as the recipient. *)
Theorem confirm_appointment_no_presence_check
    (state : AgentState) (w w1 w2 w3 : W) (msgs : list message)
    (d : ContestDecision.t) (rb : result value) :
  h (CreateLlmMessage ContestAgent.contest_prompt) w = (Ok msgs, w1) ->
  h (StructuredInvoke ContestDecision_ msgs) w1 = (Ok d, w2) ->
  ContestDecision.decision d = "ConfirmAppointment" ->
  h (BookAppointment (ContestDecision.timeslot d) (ContestDecision.email d)) w2
    = (rb, w3) ->
  exists rest,
    snd (run h (ContestAgent.contest_agent state) w) =
      Called (CreateLlmMessage ContestAgent.contest_prompt) (Ok msgs)
      :: Called (StructuredInvoke ContestDecision_ msgs) (Ok d)
      :: Called (BookAppointment (ContestDecision.timeslot d)
                                 (ContestDecision.email d)) rb
      :: rest /\
    forall confirmation url w4 rs w5,
      rb = Ok confirmation ->
      h (OpenRead "contesturl.txt") w3 = (Ok url, w4) ->
      h (SendEmail "malihajburney@gmail.com" (ContestDecision.email d)
           "Please complete the SPIF/Sales Contest Intake Form"
           (markdown url)) w4 = (rs, w5) ->
      rest =
        [Called (OpenRead "contesturl.txt") (Ok url);
         Called (SendEmail "malihajburney@gmail.com" (ContestDecision.email d)
                   "Please complete the SPIF/Sales Contest Intake Form"
                   (markdown url)) rs].
Proof.
  intros Hmsgs Hd Hdec Hbook.
  unfold ContestAgent.contest_agent, ContestAgent.generate_contest_response,
    ContestAgent.confirm_appointment, ContestAgent.get_contest_url, perform.
  cbn [bind run]. rewrite Hmsgs. cbn [bind run]. rewrite Hd, Hdec.
  cbn [bind run String.eqb Ascii.eqb Bool.eqb]. rewrite Hbook.
  destruct rb as [confirmation|e].
  - destruct (h (OpenRead "contesturl.txt") w3) as [[url|e] w4] eqn:Hurl.
    + destruct (h (SendEmail "malihajburney@gmail.com"
                     (ContestDecision.email d)
                     "Please complete the SPIF/Sales Contest Intake Form"
                     (markdown url)) w4) as [[[]|e] w5] eqn:Hsend.
      * eexists. split; [reflexivity|].
        intros c' url' w4' rs w5' [= <-] [= <- <-] Hsend'.
        rewrite Hsend in Hsend'. by injection Hsend' as <- <-.
      * eexists. split; [reflexivity|].
        intros c' url' w4' rs w5' [= <-] [= <- <-] Hsend'.
        rewrite Hsend in Hsend'. by injection Hsend' as <- <-.
    + eexists. split; [reflexivity|]. by intros c' url' w4' rs w5' _ [=].
  - eexists. split; [reflexivity|]. by intros c' url' w4' rs w5' [=].
Qed.

End Contest.

(** ** The ticket handler *)

Section Ticket.
Context `{Collaborators} {W : Type} (h : env W).

Lemma ticket_agent_lnode (state : AgentState) :
  always (fun upd => upd !! "lnode" = Some (VStr "ticket_agent"))
         (TicketAgent.ticket_agent state).
Proof.
  unfold TicketAgent.ticket_agent, TicketAgent.generate_ticket_response,
    TicketAgent.generate_ticket_email, perform.
  cbn. intros msgs r. by destruct (TicketResponse.createTicket r).
Qed.

(** C6: once the first structured completion has returned a TicketResponse,
    - with createTicket false the handler returns at once, having called
      neither the model again nor the mailer;
    - with createTicket true it drafts the body with a second structured
      completion and hands it to the mailer, addressed to the support team,
      before it returns;
    - a completed run has sent one email in the second case and none in the
      first, and in both the record returned has the response of the
      TicketResponse as responseToUser and "ticket" as category. *)
Theorem ticket_agent_email_iff_createTicket
    (state : AgentState) (w w1 w2 : W) (msgs : list message)
    (r : TicketResponse.t) :
  let prompt :=
    TicketAgent.ticket_prompt (get state "initialMessage" (VStr "")) in
  let returned : update :=
    {[ "lnode" := VStr "ticket_agent";
       "responseToUser" := VStr (TicketResponse.response r);
       "category" := VStr "ticket" ]} in
  let mail body :=
    SendEmail "malihajburney@gmail.com" (Some "i_jahangir@hotmail.com")
              "New Ticket from SalesCompAgent" body in
  h (CreateLlmMessage prompt) w = (Ok msgs, w1) ->
  h (StructuredInvoke TicketResponse_ msgs) w1 = (Ok r, w2) ->
  (TicketResponse.createTicket r = false ->
   run h (TicketAgent.ticket_agent state) w =
     (Ok returned, w2,
      [Called (CreateLlmMessage prompt) (Ok msgs);
       Called (StructuredInvoke TicketResponse_ msgs) (Ok r)])) /\
  (TicketResponse.createTicket r = true ->
   forall msgs2 w3 (draft : TicketEmail.t) w4 w5,
     h (CreateLlmMessage TicketAgent.ticket_email_prompt) w2
       = (Ok msgs2, w3) ->
     h (StructuredInvoke TicketEmail_ msgs2) w3 = (Ok draft, w4) ->
     h (mail (TicketEmail.htmlEmail draft)) w4 = (Ok tt, w5) ->
     run h (TicketAgent.ticket_agent state) w =
       (Ok returned, w5,
        [Called (CreateLlmMessage prompt) (Ok msgs);
         Called (StructuredInvoke TicketResponse_ msgs) (Ok r);
         Called (CreateLlmMessage TicketAgent.ticket_email_prompt) (Ok msgs2);
         Called (StructuredInvoke TicketEmail_ msgs2) (Ok draft);
         Called (mail (TicketEmail.htmlEmail draft)) (Ok tt)])) /\
  (forall upd w' t,
     run h (TicketAgent.ticket_agent state) w = (Ok upd, w', t) ->
     upd = returned /\
     if TicketResponse.createTicket r then
       exists msgs2 w3 (draft : TicketEmail.t) w4,
         h (CreateLlmMessage TicketAgent.ticket_email_prompt) w2
           = (Ok msgs2, w3) /\
         h (StructuredInvoke TicketEmail_ msgs2) w3 = (Ok draft, w4) /\
         emails t = [("malihajburney@gmail.com", Some "i_jahangir@hotmail.com",
                      "New Ticket from SalesCompAgent",
                      TicketEmail.htmlEmail draft)]
     else emails t = []).
Proof.
  intros prompt returned mail Hmsgs Hr.
  unfold TicketAgent.ticket_agent, TicketAgent.generate_ticket_response,
    TicketAgent.generate_ticket_email, perform.
  fold prompt. cbn [bind run]. rewrite Hmsgs. cbn [bind run]. rewrite Hr.
  destruct (TicketResponse.createTicket r); cbn [bind run].
  - split; [done|]. split.
    + intros _ msgs2 w3 draft w4 w5 Hmsgs2 Hdraft Hmail.
      rewrite Hmsgs2. cbn [bind run]. rewrite Hdraft. cbn [bind run].
      fold (mail (TicketEmail.htmlEmail draft)). by rewrite Hmail.
    + intros upd w' t.
      destruct (h (CreateLlmMessage TicketAgent.ticket_email_prompt) w2)
        as [[msgs2|e] w3]; [|done].
      cbn [bind run].
      destruct (h (StructuredInvoke TicketEmail_ msgs2) w3)
        as [[draft|e] w4] eqn:Hdraft; [|done].
      cbn [bind run].
      destruct (h _ w4) as [[[]|e] w5]; [|done].
      intros [= <- _ <-]. split; [done|]. by exists msgs2, w3, draft, w4.
  - split; [done|]. split; [done|].
    intros upd w' t [= <- _ <-]. by split.
Qed.

End Ticket.

(** ** Fields that no step touches *)

Section Frame.
Context `{Collaborators} {W : Type} (h : env W).

Lemma initial_classifier_frame (state : AgentState) :
  always (fun upd => upd !! "initialMessage" = None)
         (salesCompAgent.initial_classifier state).
Proof.
  unfold salesCompAgent.initial_classifier, getitem, human_message, print,
    perform.
  destruct (state !! "initialMessage") as [[|m]|]; cbn; [done| |done].
  by intros r.
Qed.

Lemma policy_agent_frame (state : AgentState) :
  always (fun upd => upd !! "initialMessage" = None)
         (salesCompAgent.policy_agent state).
Proof.
  unfold salesCompAgent.policy_agent, getitem, human_message, print,
    perform.
  destruct (state !! "initialMessage") as [[|m]|]; cbn; [done| |done].
  by intros r.
Qed.

Lemma commission_agent_frame (state : AgentState) :
  always (fun upd => upd !! "initialMessage" = None)
         (salesCompAgent.commission_agent state).
Proof.
  unfold salesCompAgent.commission_agent, getitem, human_message, print,
    perform.
  destruct (state !! "initialMessage") as [[|m]|]; cbn; [done| |done].
  by intros r.
Qed.

Lemma contest_agent_frame (state : AgentState) :
  always (fun upd => upd !! "initialMessage" = None)
         (ContestAgent.contest_agent state).
Proof.
  unfold ContestAgent.contest_agent, ContestAgent.generate_contest_response,
    ContestAgent.get_available_slots, ContestAgent.list_available_slots,
    ContestAgent.confirm_appointment, ContestAgent.get_contest_url, perform.
  cbn. intros msgs d.
  destruct (String.eqb (ContestDecision.decision d) "BookAppointment");
    [by cbn|].
  destruct (String.eqb (ContestDecision.decision d) "ConfirmAppointment");
    [by cbn|].
  by destruct (String.eqb (ContestDecision.decision d) "AppointmentComplete").
Qed.

Lemma ticket_agent_frame (state : AgentState) :
  always (fun upd => upd !! "initialMessage" = None)
         (TicketAgent.ticket_agent state).
Proof.
  unfold TicketAgent.ticket_agent, TicketAgent.generate_ticket_response,
    TicketAgent.generate_ticket_email, perform.
  cbn. intros msgs r. by destruct (TicketResponse.createTicket r).
Qed.

Lemma writes_frame (c : component) (state : AgentState) :
  always (fun out => forall upd, out = Some upd ->
                       upd !! "initialMessage" = None)
         (writes c state).
Proof.
  destruct c; cbn [writes]; apply always_bind.
  - eapply always_mono; [|apply initial_classifier_frame].
    by intros u Hu upd [= <-].
  - eapply always_mono with (P := fun _ => True); [done|].
    unfold salesCompAgent.main_router, getitem, print.
    destruct (state !! "category") as [v|]; cbn [bind]; [|done].
    destruct (py_in v VALID_CATEGORIES); by cbn.
  - eapply always_mono; [|apply policy_agent_frame].
    by intros u Hu upd [= <-].
  - eapply always_mono; [|apply commission_agent_frame].
    by intros u Hu upd [= <-].
  - eapply always_mono; [|apply contest_agent_frame].
    by intros u Hu upd [= <-].
  - eapply always_mono; [|apply ticket_agent_frame].
    by intros u Hu upd [= <-].
Qed.

Lemma apply_update_frame (out : option update) (state : AgentState) :
  (forall upd, out = Some upd -> upd !! "initialMessage" = None) ->
  StateGraph.apply_update out state !! "initialMessage"
    = state !! "initialMessage".
Proof.
  intros Hout. destruct out as [u|]; cbn; [|done].
  rewrite lookup_union, (Hout u eq_refl).
  by destruct (state !! "initialMessage").
Qed.

Lemma step_frame (c : component) (state : AgentState) :
  always (fun state' => state' !! "initialMessage" = state !! "initialMessage")
         (step c state).
Proof.
  unfold step. apply always_bind.
  eapply always_mono; [|apply writes_frame].
  intros out Hout. cbn. by apply apply_update_frame.
Qed.

Lemma conversation_frame (cs : list component) (state : AgentState) :
  always (fun state' => state' !! "initialMessage" = state !! "initialMessage")
         (conversation cs state).
Proof.
  revert state. induction cs as [|c cs IH]; intros state; cbn; [done|].
  apply always_bind. eapply always_mono; [|apply step_frame].
  intros state1 H1. cbn beta. eapply always_mono; [|apply IH].
  intros state2 H2. cbn beta in *. congruence.
Qed.

(** C9: no component puts initialMessage into the dictionary it returns (the
    router returns none at all), and after any sequence of steps of the
    classifier, the router and the four handlers the state holds the
    initialMessage it started with. *)
Theorem initialMessage_immutable :
  (forall (c : component) (state : AgentState) w out w' t,
     run h (writes c state) w = (Ok out, w', t) ->
     forall upd, out = Some upd -> upd !! "initialMessage" = None) /\
  (forall (cs : list component) (state : AgentState) w state' w' t,
     run h (conversation cs state) w = (Ok state', w', t) ->
     state' !! "initialMessage" = state !! "initialMessage").
Proof.
  split.
  - intros c state w out w' t Hrun.
    exact (always_run h _ _ _ _ _ _ (writes_frame c state) Hrun).
  - intros cs state w state' w' t Hrun.
    exact (always_run h _ _ _ _ _ _ (conversation_frame cs state) Hrun).
Qed.

End Frame.

(** ** The orchestrator *)

Section Orchestrator.
Context `{Collaborators} {W : Type} (h : env W).


Lemma run_steps_S (g : StateGraph.t) (n : nat) (current : string)
    (state : AgentState) (w : W) action :
  StateGraph.nodes g !! current = Some action ->
  run h (StateGraph.steps g (S n) current state) w =
  match run h (action state) w with
  | (Ok out, w1, t1) =>
      let state' := StateGraph.apply_update out state in
      match run h (StateGraph.successor g current state') w1 with
      | (Ok None, w2, t2) => (Ok state', w2, (t1 ++ t2)%list)
      | (Ok (Some key), w2, t2) =>
          let '(r, w3, t3) := run h (StateGraph.steps g n key state') w2 in
          (r, w3, (t1 ++ t2 ++ t3)%list)
      | (Err e, w2, t2) => (Err e, w2, (t1 ++ t2)%list)
      end
  | (Err e, w1, t1) => (Err e, w1, t1)
  end.
Proof.
  intros Hnode. cbn [StateGraph.steps]. rewrite Hnode, run_bind.
  destruct (run h (action state) w) as [[[out|e] w1] t1]; [|done].
  rewrite run_bind.
  destruct (run h (StateGraph.successor g current _) w1)
    as [[[[key|]|e] w2] t2]; cbn [run].
  - by destruct (run h (StateGraph.steps g n key _) w2) as [[r w3] t3].
  - by rewrite app_nil_r.
  - done.
Qed.

Lemma restrict_lookup (input : AgentState) (key : string) :
  key ∈ AgentState_keys ->
  StateGraph.restrict input !! key = input !! key.
Proof.
  intros Hkey. unfold StateGraph.restrict. rewrite map_lookup_filter.
  destruct (input !! key) as [v|]; [|done]. cbn.
  by rewrite option_guard_True.
Qed.

Lemma restrict_lookup_initialMessage (input : AgentState) :
  StateGraph.restrict input !! "initialMessage" = input !! "initialMessage".
Proof. apply restrict_lookup. apply list_elem_of_In. cbn. tauto. Qed.

(** An input that has an initial message is taken on. *)
Lemma invoke_accepted (g : StateGraph.t) (input : AgentState) (v : value) :
  input !! "initialMessage" = Some v ->
  StateGraph.invoke g input =
    match StateGraph.entry_point g with
    | Some e =>
        StateGraph.steps g StateGraph.recursion_limit e
                         (StateGraph.restrict input)
    | None => Raise (ValueError "no entry point")
    end.
Proof.
  intros Hv. unfold StateGraph.invoke. cbn zeta.
  destruct (decide (StateGraph.restrict input = ∅)) as [Hempty|]; [|done].
  pose proof (restrict_lookup_initialMessage input) as Hlookup.
  by rewrite Hempty, Hv in Hlookup.
Qed.

Lemma run_initial_classifier (state : AgentState) (w w1 : W) (m : string)
    (r : Category.t) :
  state !! "initialMessage" = Some (VStr m) ->
  h (StructuredInvoke Category_
       [SystemMessage salesCompAgent.classifier_prompt;
        HumanMessage (VStr m)]) w
    = (Ok r, w1) ->
  run h (salesCompAgent.initial_classifier state) w =
    (Ok {[ "lnode" := VStr "initial_classifier";
           "responseToUser" := VStr "Classifier successful";
           "category" := VStr (Category.category r) ]},
     w1,
     [Printed "initial classifier";
      Called (StructuredInvoke Category_
                [SystemMessage salesCompAgent.classifier_prompt;
                 HumanMessage (VStr m)]) (Ok r);
      Printed ("category is " ++ Category.category r)]).
Proof.
  intros Hm Hr.
  unfold salesCompAgent.initial_classifier, getitem, human_message, print,
    perform.
  rewrite Hm. cbn [bind run]. by rewrite Hr.
Qed.


End Orchestrator.

(** ** Failures, calls and results together *)

Section Within.
Context `{Collaborators} {W : Type} (h : env W).

Lemma within_bind {A B} E C (P : A -> Prop) (Q : B -> Prop)
    (p : prog A) (f : A -> prog B) :
  within E C P p -> (forall a, P a -> within E C Q (f a)) ->
  within E C Q (bind p f).
Proof.
  intros Hp Hf. induction p as [a|e|s k IH|c k IH]; cbn in *; auto.
  destruct Hp as [Hc Hk]. split; auto.
Qed.

Lemma within_mono {A} (E E' : exn -> Prop) (C C' : call -> Prop)
    (P P' : A -> Prop) (p : prog A) :
  (forall e, E e -> E' e) -> (forall c, C c -> C' c) ->
  (forall a, P a -> P' a) ->
  within E C P p -> within E' C' P' p.
Proof.
  intros HE HC HP. induction p as [a|e|s k IH|c k IH]; cbn; auto.
  intros [Hc Hk]. split; auto.
Qed.

Lemma within_run {A} E C (P : A -> Prop) (p : prog A) w r w' t :
  within E C P p -> run h p w = (r, w', t) ->
  calls_in C t /\
  match r with
  | Ok a => P a
  | Err e => E e \/ exists c, last t = Some (Called c (Err e))
  end.
Proof.
  unfold calls_in.
  revert w r w' t. induction p as [a|e|s k IH|c k IH]; intros w r w' t; cbn.
  - intros Ha [= <- _ <-]. by split.
  - intros He [= <- _ <-]. split; [done|]. by left.
  - intros Hk. destruct (run h k w) as [[r1 w1] t1] eqn:Hrun.
    intros [= <- _ <-]. destruct (IH _ _ _ _ Hk Hrun) as [Ht Hr].
    split; [by constructor|].
    destruct r1 as [a|e]; [done|]. destruct Hr as [He|[c Hc]]; [by left|].
    right. exists c. destruct t1; [done|exact Hc].
  - intros [Hc Hk]. destruct (h c w) as [[x|e] w0].
    + destruct (run h (k x) w0) as [[r1 w1] t1] eqn:Hrun.
      intros [= <- _ <-]. destruct (IH _ _ _ _ _ (Hk x) Hrun) as [Ht Hr].
      split; [by constructor|].
      destruct r1 as [a|e]; [done|]. destruct Hr as [He|[c' Hc']]; [by left|].
      right. exists c'. destruct t1; [done|exact Hc'].
    + intros [= <- _ <-]. split; [by repeat constructor|].
      right. by exists c.
Qed.

End Within.

(** ** The classifier and the router at their edges *)

Section Edges.
Context `{Collaborators} {W : Type} (h : env W).

(** X1: the classifier passes on as category whatever string the model gave,
    valid or not, with the fixed response text; it returns exactly when the
    state holds a string as initial message and the structured completion
    succeeds. *)
Theorem initial_classifier_passes_category_on
    (state : AgentState) (w w' : W) (upd : update) (t : list event) :
  run h (salesCompAgent.initial_classifier state) w = (Ok upd, w', t) <->
  exists (m : string) (r : Category.t),
    state !! "initialMessage" = Some (VStr m) /\
    h (StructuredInvoke Category_
         [SystemMessage salesCompAgent.classifier_prompt;
          HumanMessage (VStr m)]) w
      = (Ok r, w') /\
    t = [Printed "initial classifier";
         Called (StructuredInvoke Category_
                   [SystemMessage salesCompAgent.classifier_prompt;
                    HumanMessage (VStr m)]) (Ok r);
         Printed ("category is " ++ Category.category r)] /\
    upd = {[ "lnode" := VStr "initial_classifier";
             "responseToUser" := VStr "Classifier successful";
             "category" := VStr (Category.category r) ]}.
Proof.
  unfold salesCompAgent.initial_classifier, getitem, human_message, print,
    perform.
  destruct (state !! "initialMessage") as [[|m]|] eqn:Hm; cbn [bind run].
  - split; [done|]. by intros (m' & r' & [=] & _).
  - destruct (h _ w) as [[r|e] w1] eqn:Hr.
    + split.
      * intros [= <- <- <-]. by exists m, r.
      * intros (m' & r' & [= <-] & Hr' & -> & ->).
        rewrite Hr in Hr'. by injection Hr' as -> ->.
    + split; [done|].
      intros (m' & r' & [= <-] & Hr' & _). by rewrite Hr in Hr'.
  - split; [done|]. by intros (m' & r' & [=] & _).
Qed.

(** X2: on a state without initialMessage the classifier and the two handlers of
    graph.py raise KeyError right after their first print: the model is not
    called and the environment is left as it was. *)
Theorem graph_handlers_need_initialMessage (state : AgentState) (w : W) :
  state !! "initialMessage" = None ->
  run h (salesCompAgent.initial_classifier state) w
    = (Err (KeyError "initialMessage"), w, [Printed "initial classifier"]) /\
  run h (salesCompAgent.policy_agent state) w
    = (Err (KeyError "initialMessage"), w, [Printed "policy agent"]) /\
  run h (salesCompAgent.commission_agent state) w
    = (Err (KeyError "initialMessage"), w, [Printed "commission agent"]).
Proof.
  intros Hm.
  unfold salesCompAgent.initial_classifier, salesCompAgent.policy_agent,
    salesCompAgent.commission_agent, getitem, print, perform.
  by rewrite Hm.
Qed.

(** With [None] as initial message the three raise as well, when the
    message for the model is built: the model is not called. *)
Lemma graph_handlers_reject_None (state : AgentState) (w : W) :
  state !! "initialMessage" = Some VNone ->
  exists what,
    run h (salesCompAgent.initial_classifier state) w
      = (Err (ValidationError what), w, [Printed "initial classifier"]) /\
    run h (salesCompAgent.policy_agent state) w
      = (Err (ValidationError what), w, [Printed "policy agent"]) /\
    run h (salesCompAgent.commission_agent state) w
      = (Err (ValidationError what), w, [Printed "commission agent"]).
Proof.
  intros Hm. eexists.
  unfold salesCompAgent.initial_classifier, salesCompAgent.policy_agent,
    salesCompAgent.commission_agent, getitem, human_message, print, perform.
  by rewrite Hm.
Qed.

(** X3: a state without category makes the router raise KeyError, silently. *)
Theorem main_router_needs_category (state : AgentState) (w : W) :
  state !! "category" = None ->
  run h (salesCompAgent.main_router state) w
    = (Err (KeyError "category"), w, []).
Proof.
  intros Hc. unfold salesCompAgent.main_router, getitem. by rewrite Hc.
Qed.

(** X4: whatever the router returns is [END] or the name of a node that
    [__init__] has registered: dispatch cannot reach an unknown node. *)
Theorem main_router_returns_registered_node
    (state : AgentState) (w w' : W) (v : value) (t : list event) :
  run h (salesCompAgent.main_router state) w = (Ok v, w', t) ->
  v = VStr END \/
  exists key, v = VStr key /\ key <> END /\
              is_Some (StateGraph.nodes salesCompAgent.graph !! key).
Proof.
  unfold salesCompAgent.main_router, getitem.
  destruct (state !! "category") as [c|] eqn:Hc; cbn [bind]; [|done].
  destruct (py_in c VALID_CATEGORIES) eqn:Hin; cbn.
  - intros [= <- _ _]. right.
    apply py_in_spec, list_elem_of_fmap in Hin as (key & -> & Hkey).
    exists key. split; [done|].
    apply list_elem_of_In in Hkey. cbn in Hkey.
    destruct Hkey as [<-|[<-|[<-|[<-|[<-|[]]]]]]; (split; [done|by eexists]).
  - intros [= <- _ _]. by left.
Qed.

End Edges.

(** ** More on the contest handler *)

Section ContestBranches.
Context `{Collaborators} {W : Type} (h : env W).

(** X5: any decision other than the exact strings BookAppointment and
    ConfirmAppointment (AppointmentComplete, askforuserinfo, a different
    spelling, the empty string) makes the handler return the model's
    nextsteps as they are, after the two calls that produced the decision and
    no other. *)
Theorem contest_agent_other_decisions
    (state : AgentState) (w w1 w2 : W) (msgs : list message)
    (d : ContestDecision.t) :
  h (CreateLlmMessage ContestAgent.contest_prompt) w = (Ok msgs, w1) ->
  h (StructuredInvoke ContestDecision_ msgs) w1 = (Ok d, w2) ->
  ContestDecision.decision d <> "BookAppointment" ->
  ContestDecision.decision d <> "ConfirmAppointment" ->
  run h (ContestAgent.contest_agent state) w =
    (Ok {[ "lnode" := VStr "contest_agent";
           "responseToUser" := VStr (ContestDecision.nextsteps d);
           "category" := VStr "contest" ]},
     w2,
     [Called (CreateLlmMessage ContestAgent.contest_prompt) (Ok msgs);
      Called (StructuredInvoke ContestDecision_ msgs) (Ok d)]).
Proof.
  intros Hmsgs Hd Hbook Hconfirm.
  apply String.eqb_neq in Hbook, Hconfirm.
  unfold ContestAgent.contest_agent, ContestAgent.generate_contest_response,
    perform.
  cbn [bind run]. rewrite Hmsgs. cbn [bind run]. rewrite Hd.
  rewrite Hbook, Hconfirm.
  by destruct (String.eqb (ContestDecision.decision d) "AppointmentComplete").
Qed.

(** X6: a ConfirmAppointment turn in which every collaborator succeeds: the
    appointment is booked, the contest URL is read from contesturl.txt, its
    markdown rendering is mailed to the email of the decision, and the
    record returned carries the booking result as responseToUser and neither
    name nor email. *)
Theorem contest_agent_confirm_appointment
    (state : AgentState) (w w1 w2 w3 w4 w5 : W) (msgs : list message)
    (d : ContestDecision.t) (confirmation : value) (url : string) :
  let mail :=
    SendEmail "malihajburney@gmail.com" (ContestDecision.email d)
              "Please complete the SPIF/Sales Contest Intake Form"
              (markdown url) in
  let booking :=
    BookAppointment (ContestDecision.timeslot d) (ContestDecision.email d) in
  h (CreateLlmMessage ContestAgent.contest_prompt) w = (Ok msgs, w1) ->
  h (StructuredInvoke ContestDecision_ msgs) w1 = (Ok d, w2) ->
  ContestDecision.decision d = "ConfirmAppointment" ->
  h booking w2 = (Ok confirmation, w3) ->
  h (OpenRead "contesturl.txt") w3 = (Ok url, w4) ->
  h mail w4 = (Ok tt, w5) ->
  run h (ContestAgent.contest_agent state) w =
    (Ok {[ "lnode" := VStr "contest_agent";
           "responseToUser" := confirmation;
           "category" := VStr "contest" ]},
     w5,
     [Called (CreateLlmMessage ContestAgent.contest_prompt) (Ok msgs);
      Called (StructuredInvoke ContestDecision_ msgs) (Ok d);
      Called booking (Ok confirmation);
      Called (OpenRead "contesturl.txt") (Ok url);
      Called mail (Ok tt)]).
Proof.
  intros mail booking Hmsgs Hd Hdec Hbook Hurl Hmail.
  unfold ContestAgent.contest_agent, ContestAgent.generate_contest_response,
    ContestAgent.confirm_appointment, ContestAgent.get_contest_url, perform.
  cbn [bind run]. rewrite Hmsgs. cbn [bind run]. rewrite Hd, Hdec.
  cbn [bind run String.eqb Ascii.eqb Bool.eqb].
  fold booking. rewrite Hbook. cbn [bind run]. rewrite Hurl. cbn [bind run].
  fold mail. by rewrite Hmail.
Qed.

(** X7: where a ConfirmAppointment turn can break, and what has happened by
    then: if the booking raises, the file is not read and nothing is mailed;
    if reading contesturl.txt raises, the appointment is already booked and
    nothing is mailed; if the mailer raises, the appointment is booked; in
    all three the handler passes the exception on and returns no record. *)
Theorem contest_agent_confirm_failures
    (state : AgentState) (w w1 w2 w3 : W) (msgs : list message)
    (d : ContestDecision.t) (e : exn) :
  let mail url :=
    SendEmail "malihajburney@gmail.com" (ContestDecision.email d)
              "Please complete the SPIF/Sales Contest Intake Form"
              (markdown url) in
  let booking :=
    BookAppointment (ContestDecision.timeslot d) (ContestDecision.email d) in
  let asked :=
    [Called (CreateLlmMessage ContestAgent.contest_prompt) (Ok msgs);
     Called (StructuredInvoke ContestDecision_ msgs) (Ok d)] in
  h (CreateLlmMessage ContestAgent.contest_prompt) w = (Ok msgs, w1) ->
  h (StructuredInvoke ContestDecision_ msgs) w1 = (Ok d, w2) ->
  ContestDecision.decision d = "ConfirmAppointment" ->
  (h booking w2 = (Err e, w3) ->
   run h (ContestAgent.contest_agent state) w =
     (Err e, w3, asked ++ [Called booking (Err e)])%list) /\
  (forall confirmation w4,
     h booking w2 = (Ok confirmation, w3) ->
     h (OpenRead "contesturl.txt") w3 = (Err e, w4) ->
     run h (ContestAgent.contest_agent state) w =
       (Err e, w4,
        asked ++ [Called booking (Ok confirmation);
                  Called (OpenRead "contesturl.txt") (Err e)])%list) /\
  (forall confirmation w4 url w5,
     h booking w2 = (Ok confirmation, w3) ->
     h (OpenRead "contesturl.txt") w3 = (Ok url, w4) ->
     h (mail url) w4 = (Err e, w5) ->
     run h (ContestAgent.contest_agent state) w =
       (Err e, w5,
        asked ++ [Called booking (Ok confirmation);
                  Called (OpenRead "contesturl.txt") (Ok url);
                  Called (mail url) (Err e)])%list).
Proof.
  intros mail booking asked Hmsgs Hd Hdec.
  unfold ContestAgent.contest_agent, ContestAgent.generate_contest_response,
    ContestAgent.confirm_appointment, ContestAgent.get_contest_url, perform.
  cbn [bind run]. rewrite Hmsgs. cbn [bind run]. rewrite Hd, Hdec.
  cbn [bind run String.eqb Ascii.eqb Bool.eqb]. fold booking.
  split; [|split].
  - intros Hbook. by rewrite Hbook.
  - intros confirmation w4 Hbook Hurl. rewrite Hbook. cbn [bind run].
    by rewrite Hurl.
  - intros confirmation w4 url w5 Hbook Hurl Hmail. rewrite Hbook.
    cbn [bind run]. rewrite Hurl. cbn [bind run]. fold (mail url).
    by rewrite Hmail.
Qed.

(** X8: in any run of the contest handler, finished or broken off, either no
    call to the mailer was made, or the run consists of exactly these five
    calls in this order: the message builder, the structured completion with
    a decision of ConfirmAppointment, the booking, which succeeded, the read
    of contesturl.txt, which succeeded, and one call to the mailer, from the
    fixed sender to the email of that decision, with the rendered URL as
    body. *)
Theorem contest_agent_mails_at_most_once (state : AgentState) (w : W) :
  let t := snd (run h (ContestAgent.contest_agent state) w) in
  emails t = [] \/
  exists (msgs : list message) (d : ContestDecision.t) (confirmation : value)
         (url : string) (sent : result unit),
    ContestDecision.decision d = "ConfirmAppointment" /\
    t = [Called (CreateLlmMessage ContestAgent.contest_prompt) (Ok msgs);
         Called (StructuredInvoke ContestDecision_ msgs) (Ok d);
         Called (BookAppointment (ContestDecision.timeslot d)
                                 (ContestDecision.email d)) (Ok confirmation);
         Called (OpenRead "contesturl.txt") (Ok url);
         Called (SendEmail "malihajburney@gmail.com" (ContestDecision.email d)
                   "Please complete the SPIF/Sales Contest Intake Form"
                   (markdown url)) sent] /\
    emails t = [("malihajburney@gmail.com", ContestDecision.email d,
                 "Please complete the SPIF/Sales Contest Intake Form",
                 markdown url)].
Proof.
  unfold ContestAgent.contest_agent, ContestAgent.generate_contest_response,
    ContestAgent.get_available_slots, ContestAgent.list_available_slots,
    ContestAgent.confirm_appointment, ContestAgent.get_contest_url, perform.
  cbn [bind run].
  destruct (h _ w) as [[msgs|e] w1]; [|by left]. cbn [bind run].
  destruct (h _ w1) as [[d|e] w2]; [|by left].
  destruct (String.eqb (ContestDecision.decision d) "BookAppointment").
  { cbn [bind run]. destruct (h _ w2) as [[sl|e] w3]; [|by left].
    cbn [bind run]. by destruct (h _ w3) as [[m|e] w4]; left. }
  destruct (String.eqb (ContestDecision.decision d) "ConfirmAppointment")
    eqn:Hdec.
  2: { by destruct (String.eqb (ContestDecision.decision d)
                               "AppointmentComplete"); left. }
  apply String.eqb_eq in Hdec. cbn [bind run].
  destruct (h _ w2) as [[confirmation|e] w3]; [|by left]. cbn [bind run].
  destruct (h _ w3) as [[url|e] w4]; [|by left]. cbn [bind run].
  right. exists msgs, d, confirmation, url.
  destruct (h _ w4) as [[[]|e] w5]; cbn [snd]; eexists; by repeat split.
Qed.

End ContestBranches.

(** ** More on the ticket handler *)

Section TicketEdges.
Context `{Collaborators} {W : Type} (h : env W).

Lemma ticket_agent_no_raise (state : AgentState) :
  no_raise (TicketAgent.ticket_agent state).
Proof.
  unfold TicketAgent.ticket_agent, TicketAgent.generate_ticket_response,
    TicketAgent.generate_ticket_email, perform.
  cbn. intros msgs r. by destruct (TicketResponse.createTicket r).
Qed.

(** X9: the ticket handler does not need an initial message: a state without one
    is treated as one whose initial message is the empty string, and on any
    state a failed run is a collaborator's exception passed on, never a
    KeyError of the handler. *)
Theorem ticket_agent_tolerates_missing_message (state : AgentState) (w : W) :
  (state !! "initialMessage" = None ->
   run h (TicketAgent.ticket_agent state) w
   = run h (TicketAgent.ticket_agent {[ "initialMessage" := VStr "" ]}) w) /\
  (forall e w' t,
     run h (TicketAgent.ticket_agent state) w = (Err e, w', t) ->
     exists c, last t = Some (Called c (Err e))).
Proof.
  split.
  - intros Hm.
    unfold TicketAgent.ticket_agent, TicketAgent.generate_ticket_response, get.
    by rewrite Hm.
  - intros e w' t Hrun.
    exact (no_raise_run h _ _ _ _ _ (ticket_agent_no_raise state) Hrun).
Qed.

(** X10: with createTicket true the handler can still break before it returns:
    if the drafting completion raises, no email is sent; if the mailer
    raises, the exception is passed on; in both cases no record is returned,
    the response of the first completion is lost. *)
Theorem ticket_agent_create_ticket_failures
    (state : AgentState) (w w1 w2 w3 : W) (msgs msgs2 : list message)
    (r : TicketResponse.t) (e : exn) :
  let prompt :=
    TicketAgent.ticket_prompt (get state "initialMessage" (VStr "")) in
  let mail body :=
    SendEmail "malihajburney@gmail.com" (Some "i_jahangir@hotmail.com")
              "New Ticket from SalesCompAgent" body in
  let asked :=
    [Called (CreateLlmMessage prompt) (Ok msgs);
     Called (StructuredInvoke TicketResponse_ msgs) (Ok r);
     Called (CreateLlmMessage TicketAgent.ticket_email_prompt) (Ok msgs2)] in
  h (CreateLlmMessage prompt) w = (Ok msgs, w1) ->
  h (StructuredInvoke TicketResponse_ msgs) w1 = (Ok r, w2) ->
  TicketResponse.createTicket r = true ->
  h (CreateLlmMessage TicketAgent.ticket_email_prompt) w2 = (Ok msgs2, w3) ->
  (forall w4,
     h (StructuredInvoke TicketEmail_ msgs2) w3 = (Err e, w4) ->
     run h (TicketAgent.ticket_agent state) w =
       (Err e, w4,
        asked ++ [Called (StructuredInvoke TicketEmail_ msgs2) (Err e)])%list)
  /\
  (forall (draft : TicketEmail.t) w4 w5,
     h (StructuredInvoke TicketEmail_ msgs2) w3 = (Ok draft, w4) ->
     h (mail (TicketEmail.htmlEmail draft)) w4 = (Err e, w5) ->
     run h (TicketAgent.ticket_agent state) w =
       (Err e, w5,
        asked ++ [Called (StructuredInvoke TicketEmail_ msgs2) (Ok draft);
                  Called (mail (TicketEmail.htmlEmail draft)) (Err e)])%list).
Proof.
  intros prompt mail asked Hmsgs Hr Hcreate Hmsgs2.
  unfold TicketAgent.ticket_agent, TicketAgent.generate_ticket_response,
    TicketAgent.generate_ticket_email, perform.
  fold prompt. cbn [bind run]. rewrite Hmsgs. cbn [bind run].
  rewrite Hr, Hcreate. cbn [bind run]. rewrite Hmsgs2. cbn [bind run].
  split.
  - intros w4 Hdraft. by rewrite Hdraft.
  - intros draft w4 w5 Hdraft Hmail. rewrite Hdraft. cbn [bind run].
    fold (mail (TicketEmail.htmlEmail draft)). by rewrite Hmail.
Qed.

End TicketEdges.


(** ** The keys that the writers set *)

Section Keys.
Context `{Collaborators} {W : Type} (h : env W).

Lemma initial_classifier_keys (state : AgentState) :
  always (fun upd => dom upd = core_keys)
         (salesCompAgent.initial_classifier state).
Proof.
  unfold salesCompAgent.initial_classifier, getitem, human_message, print,
    perform.
  destruct (state !! "initialMessage") as [[|m]|]; cbn; [done| |done].
  by intros r.
Qed.

Lemma policy_agent_keys (state : AgentState) :
  always (fun upd => dom upd = core_keys) (salesCompAgent.policy_agent state).
Proof.
  unfold salesCompAgent.policy_agent, getitem, human_message, print,
    perform.
  destruct (state !! "initialMessage") as [[|m]|]; cbn; [done| |done].
  by intros r.
Qed.

Lemma commission_agent_keys (state : AgentState) :
  always (fun upd => dom upd = core_keys)
         (salesCompAgent.commission_agent state).
Proof.
  unfold salesCompAgent.commission_agent, getitem, human_message, print,
    perform.
  destruct (state !! "initialMessage") as [[|m]|]; cbn; [done| |done].
  by intros r.
Qed.

Lemma contest_agent_keys (state : AgentState) :
  always (fun upd => dom upd = core_keys \/
                     dom upd = core_keys ∪ contact_keys)
         (ContestAgent.contest_agent state).
Proof.
  unfold ContestAgent.contest_agent, ContestAgent.generate_contest_response,
    ContestAgent.get_available_slots, ContestAgent.list_available_slots,
    ContestAgent.confirm_appointment, ContestAgent.get_contest_url, perform.
  cbn. intros msgs d.
  destruct (String.eqb (ContestDecision.decision d) "BookAppointment").
  { cbn. intros sl m. by right. }
  destruct (String.eqb (ContestDecision.decision d) "ConfirmAppointment").
  { cbn. intros confirmation url []. by left. }
  destruct (String.eqb (ContestDecision.decision d) "AppointmentComplete");
    by left.
Qed.

Lemma ticket_agent_keys (state : AgentState) :
  always (fun upd => dom upd = core_keys) (TicketAgent.ticket_agent state).
Proof.
  unfold TicketAgent.ticket_agent, TicketAgent.generate_ticket_response,
    TicketAgent.generate_ticket_email, perform.
  cbn. intros msgs r. destruct (TicketResponse.createTicket r); cbn; [|done].
  by intros msgs2 draft [].
Qed.

(** X12: every dictionary that a writer returns sets lnode, responseToUser and
    category; the contest handler may add name and email; no writer sets any
    other key (the [agent] field of the state is never written), and the
    router returns no dictionary. *)
Theorem writers_set_core_keys
    (c : component) (state : AgentState) (w w' : W)
    (out : option update) (t : list event) :
  run h (writes c state) w = (Ok out, w', t) ->
  match c with
  | Router => out = None
  | Contest =>
      exists upd, out = Some upd /\
                  (dom upd = core_keys \/ dom upd = core_keys ∪ contact_keys)
  | _ => exists upd, out = Some upd /\ dom upd = core_keys
  end.
Proof.
  destruct c; cbn [writes]; intros Hrun.
  - apply (always_run h (fun out => exists upd, out = Some upd /\
                                      dom upd = core_keys) _ _ _ _ _)
      in Hrun; [done|].
    apply always_bind. eapply always_mono; [|apply initial_classifier_keys].
    cbn. eauto.
  - apply (always_run h (fun out : option update => out = None) _ _ _ _ _)
      in Hrun; [done|].
    apply always_bind. eapply always_mono with (P := fun _ => True); [done|].
    unfold salesCompAgent.main_router, getitem, print.
    destruct (state !! "category") as [v|]; cbn [bind]; [|done].
    destruct (py_in v VALID_CATEGORIES); by cbn.
  - apply (always_run h (fun out => exists upd, out = Some upd /\
                                      dom upd = core_keys) _ _ _ _ _)
      in Hrun; [done|].
    apply always_bind. eapply always_mono; [|apply policy_agent_keys].
    cbn. eauto.
  - apply (always_run h (fun out => exists upd, out = Some upd /\
                                      dom upd = core_keys) _ _ _ _ _)
      in Hrun; [done|].
    apply always_bind. eapply always_mono; [|apply commission_agent_keys].
    cbn. eauto.
  - apply (always_run h
             (fun out => exists upd, out = Some upd /\
                           (dom upd = core_keys \/
                            dom upd = core_keys ∪ contact_keys)) _ _ _ _ _)
      in Hrun; [done|].
    apply always_bind. eapply always_mono; [|apply contest_agent_keys].
    cbn. eauto.
  - apply (always_run h (fun out => exists upd, out = Some upd /\
                                      dom upd = core_keys) _ _ _ _ _)
      in Hrun; [done|].
    apply always_bind. eapply always_mono; [|apply ticket_agent_keys].
    cbn. eauto.
Qed.

End Keys.

(** ** Whole runs of the graph *)

Section Paths.
Context `{Collaborators} {W : Type} (h : env W).

Lemma run_policy_agent (state : AgentState) (w w1 : W) (m : string)
    (r : PolicyResponse.t) :
  state !! "initialMessage" = Some (VStr m) ->
  h (StructuredInvoke PolicyResponse_
       [SystemMessage salesCompAgent.POLICY_PROMPT;
        HumanMessage (VStr m)]) w
    = (Ok r, w1) ->
  run h (salesCompAgent.policy_agent state) w =
    (Ok {[ "lnode" := VStr "initial_classifier";
           "responseToUser" :=
             VStr (PolicyResponse.response r ++ " " ++ nl ++ nl
                   ++ " Source: " ++ PolicyResponse.policy r);
           "category" := VStr (PolicyResponse.policy r) ]},
     w1,
     [Printed "policy agent";
      Called (StructuredInvoke PolicyResponse_
                [SystemMessage salesCompAgent.POLICY_PROMPT;
                 HumanMessage (VStr m)]) (Ok r);
      Printed ("Policy is: " ++ PolicyResponse.policy r
               ++ ", Response is: " ++ PolicyResponse.response r)]).
Proof.
  intros Hm Hr.
  unfold salesCompAgent.policy_agent, getitem, human_message, print, perform.
  rewrite Hm. cbn [bind run]. by rewrite Hr.
Qed.

Lemma run_commission_agent (state : AgentState) (w w1 : W) (m : string)
    (r : CommissionResponse.t) :
  state !! "initialMessage" = Some (VStr m) ->
  h (StructuredInvoke CommissionResponse_
       [SystemMessage salesCompAgent.COMMISSION_PROMPT;
        HumanMessage (VStr m)]) w
    = (Ok r, w1) ->
  run h (salesCompAgent.commission_agent state) w =
    (Ok {[ "lnode" := VStr "initial_classifier";
           "responseToUser" :=
             VStr (CommissionResponse.response r ++ " " ++ nl ++ nl
                   ++ " Source: " ++ CommissionResponse.calculation r
                   ++ "." ++ nl
                   ++ " Commission: " ++ CommissionResponse.commission r);
           "category" := VStr (CommissionResponse.calculation r) ]},
     w1,
     [Printed "commission agent";
      Called (StructuredInvoke CommissionResponse_
                [SystemMessage salesCompAgent.COMMISSION_PROMPT;
                 HumanMessage (VStr m)]) (Ok r);
      Printed ("Commission is " ++ CommissionResponse.commission r
               ++ ", Calculation is " ++ CommissionResponse.calculation r
               ++ ", Response is " ++ CommissionResponse.response r)]).
Proof.
  intros Hm Hr.
  unfold salesCompAgent.commission_agent, getitem, human_message, print,
    perform.
  rewrite Hm. cbn [bind run]. by rewrite Hr.
Qed.

(** The wiring that [__init__] leaves for a valid category. *)
Lemma graph_wiring (key : string) :
  key ∈ VALID_CATEGORIES ->
  StateGraph.target key = Some key /\
  StateGraph.branches salesCompAgent.graph !! key = None /\
  find (fun e => bool_decide (fst e = key))
       (StateGraph.edges salesCompAgent.graph) = Some (key, END).
Proof.
  intros Hkey. apply list_elem_of_In in Hkey. cbn in Hkey.
  destruct Hkey as [<-|[<-|[<-|[<-|[<-|[]]]]]]; by repeat split.
Qed.

(** One turn through a node of a valid category. *)
Lemma run_invoke_valid (state : AgentState) (w w1 w2 : W) (m : string)
    (c : Category.t) action out t2 :
  let classified : update :=
    {[ "lnode" := VStr "initial_classifier";
       "responseToUser" := VStr "Classifier successful";
       "category" := VStr (Category.category c) ]} in
  state !! "initialMessage" = Some (VStr m) ->
  h (StructuredInvoke Category_
       [SystemMessage salesCompAgent.classifier_prompt; HumanMessage (VStr m)]) w
    = (Ok c, w1) ->
  Category.category c ∈ VALID_CATEGORIES ->
  StateGraph.nodes salesCompAgent.graph !! Category.category c
    = Some action ->
  run h (action (classified ∪ StateGraph.restrict state)) w1
    = (Ok out, w2, t2) ->
  run h (StateGraph.invoke salesCompAgent.graph state) w =
    (Ok (StateGraph.apply_update out (classified ∪ StateGraph.restrict state)),
     w2,
     [Printed "initial classifier";
      Called (StructuredInvoke Category_
                [SystemMessage salesCompAgent.classifier_prompt;
                 HumanMessage (VStr m)]) (Ok c);
      Printed ("category is " ++ Category.category c)] ++ t2)%list.
Proof.
  intros classified Hm Hc Hvalid Hnode Haction.
  destruct (graph_wiring _ Hvalid) as (Htarget & Hbranch & Hedge).
  rewrite (invoke_accepted _ _ _ Hm).
  change (StateGraph.entry_point salesCompAgent.graph)
    with (Some "classifier").
  unfold StateGraph.recursion_limit.
  erewrite run_steps_S; [|reflexivity].
  cbn beta.
  rewrite run_bind,
    (run_initial_classifier h (StateGraph.restrict state) w w1 m c);
    [|by rewrite restrict_lookup_initialMessage|exact Hc].
  cbn [run StateGraph.apply_update]. fold classified.
  unfold StateGraph.successor at 1.
  change (StateGraph.branches salesCompAgent.graph !! "classifier")
    with (Some (@salesCompAgent.main_router H)).
  cbn beta iota.
  rewrite run_bind,
    (run_main_router h _ (VStr (Category.category c)) w1);
    [|by apply lookup_union_Some_l].
  assert (Hin : py_in (VStr (Category.category c)) VALID_CATEGORIES = true).
  { apply py_in_spec, list_elem_of_fmap. by exists (Category.category c). }
  rewrite Hin. cbn [run]. rewrite Htarget.
  erewrite run_steps_S; [|exact Hnode].
  rewrite Haction. cbn zeta.
  unfold StateGraph.successor. rewrite Hbranch, Hedge.
  cbn [run snd StateGraph.target]. cbn. by rewrite app_nil_r.
Qed.

(** X13: a policy question end to end: the classifier answers policy, the router
    dispatches to the policy handler, and the run ends in a state whose
    category is the policy that the model named and whose responseToUser is
    the attributed answer, after two structured completions. *)
Theorem invoke_policy_path (state : AgentState) (w w1 w2 : W) (m : string)
    (c : Category.t) (r : PolicyResponse.t) :
  state !! "initialMessage" = Some (VStr m) ->
  h (StructuredInvoke Category_
       [SystemMessage salesCompAgent.classifier_prompt; HumanMessage (VStr m)]) w
    = (Ok c, w1) ->
  Category.category c = "policy" ->
  h (StructuredInvoke PolicyResponse_
       [SystemMessage salesCompAgent.POLICY_PROMPT; HumanMessage (VStr m)]) w1
    = (Ok r, w2) ->
  exists final,
    run h (StateGraph.invoke salesCompAgent.graph state) w =
      (Ok final, w2,
       [Printed "initial classifier";
        Called (StructuredInvoke Category_
                  [SystemMessage salesCompAgent.classifier_prompt;
                   HumanMessage (VStr m)]) (Ok c);
        Printed "category is policy";
        Printed "policy agent";
        Called (StructuredInvoke PolicyResponse_
                  [SystemMessage salesCompAgent.POLICY_PROMPT;
                   HumanMessage (VStr m)]) (Ok r);
        Printed ("Policy is: " ++ PolicyResponse.policy r
                 ++ ", Response is: " ++ PolicyResponse.response r)]) /\
    final !! "category" = Some (VStr (PolicyResponse.policy r)) /\
    final !! "responseToUser"
      = Some (VStr (PolicyResponse.response r ++ " " ++ nl ++ nl
                    ++ " Source: " ++ PolicyResponse.policy r)) /\
    final !! "initialMessage" = Some (VStr m).
Proof.
  intros Hm Hc Hcat Hr.
  eexists. split.
  - erewrite run_invoke_valid; [|exact Hm|exact Hc| | |].
    + rewrite Hcat. reflexivity.
    + rewrite Hcat. apply list_elem_of_here.
    + rewrite Hcat. reflexivity.
    + cbn beta. rewrite run_bind.
      erewrite run_policy_agent; [reflexivity| |exact Hr].
      rewrite lookup_union_r; [|reflexivity].
      by rewrite restrict_lookup_initialMessage.
  - cbn [StateGraph.apply_update].
    repeat split; try (by apply lookup_union_Some_l).
    rewrite !lookup_union_r; [|reflexivity..].
    by rewrite restrict_lookup_initialMessage.
Qed.

(** X14: a commission question end to end, in the same way; the category of the
    final state is the calculation that the model gave. *)
Theorem invoke_commission_path (state : AgentState) (w w1 w2 : W) (m : string)
    (c : Category.t) (r : CommissionResponse.t) :
  state !! "initialMessage" = Some (VStr m) ->
  h (StructuredInvoke Category_
       [SystemMessage salesCompAgent.classifier_prompt; HumanMessage (VStr m)]) w
    = (Ok c, w1) ->
  Category.category c = "commission" ->
  h (StructuredInvoke CommissionResponse_
       [SystemMessage salesCompAgent.COMMISSION_PROMPT; HumanMessage (VStr m)]) w1
    = (Ok r, w2) ->
  exists final,
    run h (StateGraph.invoke salesCompAgent.graph state) w =
      (Ok final, w2,
       [Printed "initial classifier";
        Called (StructuredInvoke Category_
                  [SystemMessage salesCompAgent.classifier_prompt;
                   HumanMessage (VStr m)]) (Ok c);
        Printed "category is commission";
        Printed "commission agent";
        Called (StructuredInvoke CommissionResponse_
                  [SystemMessage salesCompAgent.COMMISSION_PROMPT;
                   HumanMessage (VStr m)]) (Ok r);
        Printed ("Commission is " ++ CommissionResponse.commission r
                 ++ ", Calculation is " ++ CommissionResponse.calculation r
                 ++ ", Response is " ++ CommissionResponse.response r)]) /\
    final !! "category" = Some (VStr (CommissionResponse.calculation r)) /\
    final !! "responseToUser"
      = Some (VStr (CommissionResponse.response r ++ " " ++ nl ++ nl
                    ++ " Source: " ++ CommissionResponse.calculation r
                    ++ "." ++ nl
                    ++ " Commission: " ++ CommissionResponse.commission r)) /\
    final !! "initialMessage" = Some (VStr m).
Proof.
  intros Hm Hc Hcat Hr.
  eexists. split.
  - erewrite run_invoke_valid; [|exact Hm|exact Hc| | |].
    + rewrite Hcat. reflexivity.
    + rewrite Hcat. apply list_elem_of_further, list_elem_of_here.
    + rewrite Hcat. reflexivity.
    + cbn beta. rewrite run_bind.
      erewrite run_commission_agent; [reflexivity| |exact Hr].
      rewrite lookup_union_r; [|reflexivity].
      by rewrite restrict_lookup_initialMessage.
  - cbn [StateGraph.apply_update].
    repeat split; try (by apply lookup_union_Some_l).
    rewrite !lookup_union_r; [|reflexivity..].
    by rewrite restrict_lookup_initialMessage.
Qed.


End Paths.

(** ** What a run of the graph can and cannot do *)

Section GraphSafety.
Context `{Collaborators} {W : Type} (h : env W).

Lemma calls_in_graph_no_emails (t : list event) :
  calls_in graph_call t -> emails t = [].
Proof.
  unfold calls_in, emails. induction 1 as [|ev t Hev _ IH]; [done|].
  cbn. rewrite IH. by destruct ev as [s|[] r].
Qed.

Lemma within_initial_classifier (state : AgentState) (m : string) :
  state !! "initialMessage" = Some (VStr m) ->
  within (fun _ => False) graph_call
         (fun upd => exists c : string,
            upd = {[ "lnode" := VStr "initial_classifier";
                     "responseToUser" := VStr "Classifier successful";
                     "category" := VStr c ]})
         (salesCompAgent.initial_classifier state).
Proof.
  intros Hm.
  unfold salesCompAgent.initial_classifier, getitem, human_message, print,
    perform.
  rewrite Hm. cbn. split; [done|]. intros r. by eexists.
Qed.

Lemma within_handler_result (E : exn -> Prop)
    (p : prog update) (state : AgentState) :
  within E graph_call
         (fun upd => upd !! "initialMessage" = None /\
                     is_Some (upd !! "responseToUser")) p ->
  within E graph_call
         (fun out => StateGraph.apply_update out state !! "initialMessage"
                       = state !! "initialMessage" /\
                     (is_Some (state !! "responseToUser") ->
                      is_Some (StateGraph.apply_update out state
                                 !! "responseToUser")))
         (u <- p ;; Ret (Some u)).
Proof.
  intros Hp. eapply within_bind; [exact Hp|].
  intros u [Hu Hr]. cbn. split.
  - rewrite lookup_union, Hu. by destruct (state !! "initialMessage").
  - intros _. destruct Hr as [v Hv]. exists v. by apply lookup_union_Some_l.
Qed.

Lemma within_policy_agent (state : AgentState) (m : string) :
  state !! "initialMessage" = Some (VStr m) ->
  within (fun _ => False) graph_call
         (fun upd => upd !! "initialMessage" = None /\
                     is_Some (upd !! "responseToUser"))
         (salesCompAgent.policy_agent state).
Proof.
  intros Hm.
  unfold salesCompAgent.policy_agent, getitem, human_message, print, perform.
  rewrite Hm. cbn. split; [done|]. intros r. by split; [|eexists].
Qed.

Lemma within_commission_agent (state : AgentState) (m : string) :
  state !! "initialMessage" = Some (VStr m) ->
  within (fun _ => False) graph_call
         (fun upd => upd !! "initialMessage" = None /\
                     is_Some (upd !! "responseToUser"))
         (salesCompAgent.commission_agent state).
Proof.
  intros Hm.
  unfold salesCompAgent.commission_agent, getitem, human_message, print,
    perform.
  rewrite Hm. cbn. split; [done|]. intros r. by split; [|eexists].
Qed.

Lemma within_placeholder (state : AgentState) (line : string) :
  within (fun _ => False) graph_call
         (fun out => StateGraph.apply_update out state !! "initialMessage"
                       = state !! "initialMessage" /\
                     (is_Some (state !! "responseToUser") ->
                      is_Some (StateGraph.apply_update out state
                                 !! "responseToUser")))
         (Out line (Ret None)).
Proof. by cbn. Qed.


Lemma invoke_refused (g : StateGraph.t) (input : AgentState) :
  StateGraph.restrict input = ∅ ->
  exists what, StateGraph.invoke g input = Raise (InvalidUpdateError what).
Proof.
  intros Hempty. unfold StateGraph.invoke. cbn zeta.
  destruct (decide (StateGraph.restrict input = ∅)); [by eexists|done].
Qed.

(** An input that is taken on but holds no string as initial message makes
    the classifier raise after its print. *)
Lemma invoke_classifier_raises (input : AgentState) :
  StateGraph.restrict input <> ∅ ->
  (input !! "initialMessage" = None ->
   StateGraph.invoke salesCompAgent.graph input
   = Out "initial classifier" (Raise (KeyError "initialMessage"))) /\
  (input !! "initialMessage" = Some VNone ->
   exists what,
     StateGraph.invoke salesCompAgent.graph input
     = Out "initial classifier" (Raise (ValidationError what))).
Proof.
  intros Hne.
  assert (Hstart : StateGraph.invoke salesCompAgent.graph input =
            (out <- (u <- salesCompAgent.initial_classifier
                            (StateGraph.restrict input) ;; Ret (Some u)) ;;
             (let state' := StateGraph.apply_update out
                              (StateGraph.restrict input) in
              nxt <- StateGraph.successor salesCompAgent.graph "classifier"
                       state' ;;
              match nxt with
              | None => Ret state'
              | Some key =>
                  StateGraph.steps salesCompAgent.graph 24 key state'
              end))).
  { unfold StateGraph.invoke. cbn zeta.
    destruct (decide (StateGraph.restrict input = ∅)); [done|].
    reflexivity. }
  rewrite Hstart.
  unfold salesCompAgent.initial_classifier, getitem, human_message, print.
  rewrite restrict_lookup_initialMessage.
  split; intros Hm; rewrite Hm; [done|]. by eexists.
Qed.

Lemma within_invoke (state : AgentState) (m : string) :
  state !! "initialMessage" = Some (VStr m) ->
  within (fun _ => False) graph_call
         (fun final => final !! "initialMessage" = Some (VStr m) /\
                       is_Some (final !! "responseToUser"))
         (StateGraph.invoke salesCompAgent.graph state).
Proof.
  intros Hm. rewrite (invoke_accepted _ _ _ Hm).
  assert (Hm0 : StateGraph.restrict state !! "initialMessage"
                = Some (VStr m))
    by (by rewrite restrict_lookup_initialMessage).
  revert Hm0. generalize (StateGraph.restrict state). clear Hm state.
  intros state Hm.
  change (StateGraph.entry_point salesCompAgent.graph)
    with (Some "classifier").
  unfold StateGraph.recursion_limit. cbn [StateGraph.steps].
  change (StateGraph.nodes salesCompAgent.graph !! "classifier")
    with (Some (fun st => u <- @salesCompAgent.initial_classifier H st ;;
                          Ret (Some u))).
  cbn beta iota.
  eapply (within_bind _ _
            (fun out => exists c : string,
               out = Some {[ "lnode" := VStr "initial_classifier";
                             "responseToUser" := VStr "Classifier successful";
                             "category" := VStr c ]})).
  { eapply within_bind; [by apply (within_initial_classifier state m)|].
    intros u [c ->]. cbn. by exists c. }
  intros out [c ->]. cbn [StateGraph.apply_update].
  set (state1 := _ ∪ state).
  assert (Hcat : state1 !! "category" = Some (VStr c))
    by (by apply lookup_union_Some_l).
  assert (Hmsg : state1 !! "initialMessage" = Some (VStr m)).
  { unfold state1. rewrite lookup_union_r; [done|reflexivity]. }
  assert (Hresp : is_Some (state1 !! "responseToUser")).
  { eexists. by apply lookup_union_Some_l. }
  unfold StateGraph.successor at 1.
  change (StateGraph.branches salesCompAgent.graph !! "classifier")
    with (Some (@salesCompAgent.main_router H)).
  cbn beta iota.
  unfold salesCompAgent.main_router, getitem. rewrite Hcat. cbn [bind].
  destruct (py_in (VStr c) VALID_CATEGORIES) eqn:Hin; cbn [bind print].
  2: { change (StateGraph.target END) with (@None string). by cbn. }
  assert (Hfinish : forall key p,
            key ∈ VALID_CATEGORIES ->
            StateGraph.nodes salesCompAgent.graph !! key = Some p ->
            within (fun _ => False) graph_call
              (fun out =>
                 StateGraph.apply_update out state1 !! "initialMessage"
                   = state1 !! "initialMessage" /\
                 (is_Some (state1 !! "responseToUser") ->
                  is_Some (StateGraph.apply_update out state1
                             !! "responseToUser")))
              (p state1) ->
            within (fun _ => False) graph_call
              (fun final => final !! "initialMessage" = Some (VStr m) /\
                            is_Some (final !! "responseToUser"))
              (match StateGraph.target key with
               | Some key' =>
                   StateGraph.steps salesCompAgent.graph 24 key' state1
               | None => Ret state1
               end)).
  { intros key p Hkey Hnode Hp.
    destruct (graph_wiring key Hkey) as (Htarget & Hbranch & Hedge).
    rewrite Htarget. cbn [StateGraph.steps]. rewrite Hnode.
    eapply within_bind; [exact Hp|].
    cbn beta. intros out [Hout1 Hout2].
    unfold StateGraph.successor. rewrite Hbranch, Hedge.
    cbn [bind snd]. change (StateGraph.target END) with (@None string).
    cbn [within]. rewrite Hout1, Hmsg. split; [done|]. by apply Hout2. }
  apply py_in_spec, list_elem_of_fmap in Hin as (key & [= ->] & Hkey).
  pose proof Hkey as Hkey'.
  apply list_elem_of_In in Hkey'. cbn in Hkey'. cbn [bind].
  destruct Hkey' as [<-|[<-|[<-|[<-|[<-|[]]]]]].
  - apply (Hfinish "policy" _ Hkey eq_refl).
    by apply within_handler_result, (within_policy_agent state1 m).
  - apply (Hfinish "commission" _ Hkey eq_refl).
    by apply within_handler_result, (within_commission_agent state1 m).
  - apply (Hfinish "contest" _ Hkey eq_refl). apply within_placeholder.
  - apply (Hfinish "ticket" _ Hkey eq_refl). apply within_placeholder.
  - apply (Hfinish "clarify" _ Hkey eq_refl). apply within_placeholder.
Qed.


(** X17: whatever the state and the environment, a run of the graph of graph.py
    makes only structured completions, for the classifier and for the policy
    and commission handlers: it never asks for slots, books, reads a file or
    sends an email. *)
Theorem invoke_makes_only_completions (state : AgentState) (w : W) :
  let t := snd (run h (StateGraph.invoke salesCompAgent.graph state) w) in
  calls_in graph_call t /\ emails t = [].
Proof.
  cbn zeta.
  assert (Hcalls : calls_in graph_call
            (snd (run h (StateGraph.invoke salesCompAgent.graph state) w))).
  { destruct (state !! "initialMessage") as [[|m]|] eqn:Hm.
    - assert (Hne : StateGraph.restrict state <> ∅).
      { intros Hempty.
        pose proof (restrict_lookup_initialMessage state) as Hl.
        by rewrite Hempty, Hm in Hl. }
      destruct (proj2 (invoke_classifier_raises state Hne) Hm) as [what ->].
      cbn. by repeat constructor.
    - destruct (run h _ w) as [[r w'] t] eqn:Hrun.
      by destruct (within_run h _ _ _ _ _ _ _ _
                     (within_invoke state m Hm) Hrun).
    - destruct (decide (StateGraph.restrict state = ∅)) as [Hempty|Hne].
      + destruct (invoke_refused salesCompAgent.graph state Hempty)
          as [what ->].
        cbn. constructor.
      + rewrite (proj1 (invoke_classifier_raises state Hne) Hm). cbn.
        by repeat constructor. }
  split; [exact Hcalls|]. by apply calls_in_graph_no_emails.
Qed.

End GraphSafety.

(** ** Two more compositions *)

Section Compositions.
Context `{Collaborators} {W : Type} (h : env W).

(** X11: in any run of the ticket handler, finished or broken off, either no
    call to the mailer was made, or exactly one was: after a TicketResponse
    with createTicket true and a drafting completion that succeeded, to the
    support address, with the drafted htmlEmail as body. *)
Theorem ticket_agent_mails_at_most_once (state : AgentState) (w : W) :
  let t := snd (run h (TicketAgent.ticket_agent state) w) in
  emails t = [] \/
  exists (msgs msgs2 : list message) (r : TicketResponse.t)
         (draft : TicketEmail.t),
    TicketResponse.createTicket r = true /\
    Called (StructuredInvoke TicketResponse_ msgs) (Ok r) ∈ t /\
    Called (StructuredInvoke TicketEmail_ msgs2) (Ok draft) ∈ t /\
    emails t = [("malihajburney@gmail.com", Some "i_jahangir@hotmail.com",
                 "New Ticket from SalesCompAgent",
                 TicketEmail.htmlEmail draft)].
Proof.
  unfold TicketAgent.ticket_agent, TicketAgent.generate_ticket_response,
    TicketAgent.generate_ticket_email, perform.
  cbn [bind run].
  destruct (h _ w) as [[msgs|e] w1]; [|by left]. cbn [bind run].
  destruct (h _ w1) as [[r|e] w2]; [|by left].
  destruct (TicketResponse.createTicket r) eqn:Hcreate; [|by left].
  cbn [bind run].
  destruct (h _ w2) as [[msgs2|e] w3]; [|by left]. cbn [bind run].
  destruct (h _ w3) as [[draft|e] w4]; [|by left]. cbn [bind run].
  right. exists msgs, msgs2, r, draft. split; [done|].
  destruct (h _ w4) as [[[]|e] w5]; cbn [snd];
    (split; [|split]; [| |reflexivity]);
    apply list_elem_of_In; cbn; tauto.
Qed.

(** X18: the policy handler's category fed back to the router: the router ends
    the conversation, unless the policy that the model named happens to be
    one of the five category names, and then it dispatches on it. *)
Theorem router_after_policy_agent (state : AgentState) (w w1 : W) (m : string)
    (r : PolicyResponse.t) :
  state !! "initialMessage" = Some (VStr m) ->
  h (StructuredInvoke PolicyResponse_
       [SystemMessage salesCompAgent.POLICY_PROMPT;
        HumanMessage (VStr m)]) w
    = (Ok r, w1) ->
  let again :=
    u <- salesCompAgent.policy_agent state ;;
    salesCompAgent.main_router (StateGraph.apply_update (Some u) state) in
  (PolicyResponse.policy r ∈ VALID_CATEGORIES ->
   fst (fst (run h again w)) = Ok (VStr (PolicyResponse.policy r))) /\
  (PolicyResponse.policy r ∉ VALID_CATEGORIES ->
   fst (fst (run h again w)) = Ok (VStr END)).
Proof.
  intros Hm Hr again. unfold again.
  rewrite run_bind, (run_policy_agent h state w w1 m r Hm Hr).
  cbn [StateGraph.apply_update].
  rewrite (run_main_router h _ (VStr (PolicyResponse.policy r)) w1);
    [|by apply lookup_union_Some_l].
  split; intros Hin.
  - assert (E : py_in (VStr (PolicyResponse.policy r)) VALID_CATEGORIES = true).
    { apply py_in_spec, list_elem_of_fmap. by eexists. }
    by rewrite E.
  - destruct (py_in _ _) eqn:E; [|done]. destruct Hin.
    by apply py_in_spec, list_elem_of_fmap in E as (key & [= ->] & Hkey).
Qed.

End Compositions.

(** ** Runs in the concrete environment *)

#[local] Existing Instance sample.

Lemma main_router_total_witness :
  run (model "policy" "Leave of absence" "Other" false)
      (salesCompAgent.main_router {[ "category" := VStr "policy" ]}) 0
    = (Ok (VStr "policy"), 0, []) /\
  run (model "policy" "Leave of absence" "Other" false)
      (salesCompAgent.main_router {[ "category" := VStr "Leave of absence" ]}) 0
    = (Ok (VStr END), 0, [Printed "unknown category: Leave of absence"]).
Proof.
  split.
  - apply (main_router_total _ {[ "category" := VStr "policy" ]}
             (VStr "policy") 0); [reflexivity|].
    apply py_in_spec. reflexivity.
  - apply (main_router_total _ {[ "category" := VStr "Leave of absence" ]}
             (VStr "Leave of absence") 0); [reflexivity|].
    intros Hin. apply py_in_spec in Hin. discriminate Hin.
Defined.

(** C2, as stated, fails: the model may name anything as the policy, the
    string "policy" included, and that is what the category becomes. *)
Lemma policy_agent_category_can_be_policy :
  ~ (forall upd w' t,
       run (model "policy" "policy" "Other" false)
           (salesCompAgent.policy_agent question) 0 = (Ok upd, w', t) ->
       exists p, p ∈ POLICY_NAMES /\ p <> "policy" /\
                 upd !! "category" = Some (VStr p)).
Proof.
  intros Hclaim.
  destruct (Hclaim _ _ _ eq_refl) as (p & _ & Hne & Hcat).
  vm_compute in Hcat. injection Hcat as <-. by apply Hne.
Qed.

Lemma policy_agent_returns_model_policy_witness :
  run (model "policy" "Leave of absence" "Other" false)
      (salesCompAgent.policy_agent question) 0
  = (Ok {[ "lnode" := VStr "initial_classifier";
           "responseToUser" :=
             VStr ("You are guaranteed a minimum. " ++ nl ++ nl
                   ++ " Source: Leave of absence");
           "category" := VStr "Leave of absence" ]},
     1,
     [Printed "policy agent";
      Called (StructuredInvoke PolicyResponse_
                [SystemMessage salesCompAgent.POLICY_PROMPT;
                 HumanMessage (VStr "What is minimum commission guarantee?")])
             (Ok {| PolicyResponse.policy := "Leave of absence";
                    PolicyResponse.response :=
                      "You are guaranteed a minimum." |});
      Printed ("Policy is: Leave of absence, "
               ++ "Response is: You are guaranteed a minimum.")]).
Proof.
  apply (proj2 (policy_agent_returns_model_policy _ question 0 1 _ _)).
  exists "What is minimum commission guarantee?".
  exists {| PolicyResponse.policy := "Leave of absence";
            PolicyResponse.response := "You are guaranteed a minimum." |}.
  repeat split; reflexivity.
Defined.

(** C3 fails on the code: the record that [policy_agent] returns, and the one
    that [commission_agent] returns, name the classifier in [lnode], not the
    handler that wrote them. *)
Theorem policy_and_commission_lnode_name_classifier :
  (exists upd t,
     run (model "policy" "Minimum commission guarantee" "Other" false)
         (salesCompAgent.policy_agent question) 0 = (Ok upd, 1, t) /\
     upd !! "lnode" = Some (VStr "initial_classifier")) /\
  (exists upd t,
     run (model "commission" "Minimum commission guarantee" "Other" false)
         (salesCompAgent.commission_agent question) 0 = (Ok upd, 1, t) /\
     upd !! "lnode" = Some (VStr "initial_classifier")).
Proof.
  split; eexists _, _; (split; [reflexivity|]); reflexivity.
Qed.

Lemma commission_agent_combines_fields_witness :
  run (model "commission" "Leave of absence" "Other" false)
      (salesCompAgent.commission_agent question) 0
  = (Ok {[ "lnode" := VStr "initial_classifier";
           "responseToUser" :=
             VStr ("Your commission is $5000. " ++ nl ++ nl
                   ++ " Source: 100000 * 0.05." ++ nl
                   ++ " Commission: 5000");
           "category" := VStr "100000 * 0.05" ]},
     1,
     [Printed "commission agent";
      Called (StructuredInvoke CommissionResponse_
                [SystemMessage salesCompAgent.COMMISSION_PROMPT;
                 HumanMessage (VStr "What is minimum commission guarantee?")])
             (Ok {| CommissionResponse.commission := "5000";
                    CommissionResponse.calculation := "100000 * 0.05";
                    CommissionResponse.response :=
                      "Your commission is $5000." |});
      Printed ("Commission is 5000, Calculation is 100000 * 0.05, "
               ++ "Response is Your commission is $5000.")]).
Proof.
  apply (proj2 (commission_agent_combines_fields _ question 0 1 _ _)).
  exists "What is minimum commission guarantee?".
  exists {| CommissionResponse.commission := "5000";
            CommissionResponse.calculation := "100000 * 0.05";
            CommissionResponse.response := "Your commission is $5000." |}.
  repeat split; reflexivity.
Defined.

Lemma contest_agent_category_is_contest_witness :
  exists upd t,
    run (model "contest" "Leave of absence" "askforuserinfo" false)
        (ContestAgent.contest_agent question) 0 = (Ok upd, 2, t) /\
    upd !! "category" = Some (VStr "contest").
Proof.
  eexists _, _. split; [reflexivity|].
  eapply (proj1 (contest_agent_category_is_contest
                   (model "contest" "Leave of absence" "askforuserinfo" false)
                   question 0)).
  reflexivity.
Defined.

Lemma contest_agent_book_appointment_witness :
  run (scripted (contact_answers "BookAppointment"))
      (ContestAgent.contest_agent question) 0
  = (Ok {[ "lnode" := VStr "contest_agent";
           "responseToUser" :=
             VStr "Mon 10:00 or Tue 14:00. Please choose a time slot.";
           "category" := VStr "contest";
           "name" := VStr "Ada";
           "email" := VStr "ada@example.com" ]},
     4,
     [Called (CreateLlmMessage ContestAgent.contest_prompt)
             (Ok [SystemMessage ContestAgent.contest_prompt;
                  HumanMessage (VStr "I am Ada, ada@example.com")]);
      Called (StructuredInvoke ContestDecision_
                [SystemMessage ContestAgent.contest_prompt;
                 HumanMessage (VStr "I am Ada, ada@example.com")])
             (Ok {| ContestDecision.nextsteps := "Please pick a slot.";
                    ContestDecision.decision := "BookAppointment";
                    ContestDecision.timeslot := None;
                    ContestDecision.email := Some "ada@example.com";
                    ContestDecision.name := Some "Ada" |});
      Called HandleAppointmentRequest (Ok ["Mon 10:00"; "Tue 14:00"]);
      Called (ModelInvoke
                (ContestAgent.time_slot_prompt ["Mon 10:00"; "Tue 14:00"]))
             (Ok (AIMessage
                    "Mon 10:00 or Tue 14:00. Please choose a time slot."))]) /\
  exists before after : string,
    ContestAgent.time_slot_prompt ["Mon 10:00"; "Tue 14:00"]
    = before ++ "Available slots: Mon 10:00, Tue 14:00" ++ after.
Proof.
  destruct (contest_agent_book_appointment
              (scripted (contact_answers "BookAppointment"))
              question 0 1 2 3 4
              [SystemMessage ContestAgent.contest_prompt;
               HumanMessage (VStr "I am Ada, ada@example.com")]
              {| ContestDecision.nextsteps := "Please pick a slot.";
                 ContestDecision.decision := "BookAppointment";
                 ContestDecision.timeslot := None;
                 ContestDecision.email := Some "ada@example.com";
                 ContestDecision.name := Some "Ada" |}
              ["Mon 10:00"; "Tue 14:00"]
              "Mon 10:00 or Tue 14:00. Please choose a time slot."
              eq_refl eq_refl eq_refl eq_refl eq_refl)
    as [Hrun (before & after & Hprompt)].
  split; [exact Hrun|].
  exists before, after. exact (Hprompt ["Mon 10:00"; "Tue 14:00"]).
Defined.

(** The model answers ConfirmAppointment with neither timeslot nor email:
    the booking is requested for [None, None] and the intake form is mailed
    to [None]. *)
Lemma confirm_appointment_no_presence_check_witness :
  exists rest,
    snd (run (model "contest" "Leave of absence" "ConfirmAppointment" false)
             (ContestAgent.contest_agent question) 0) =
      Called (CreateLlmMessage ContestAgent.contest_prompt)
             (Ok [SystemMessage ContestAgent.contest_prompt;
                  HumanMessage (VStr "I am Ada, ada@example.com")])
      :: Called (StructuredInvoke ContestDecision_
                   [SystemMessage ContestAgent.contest_prompt;
                    HumanMessage (VStr "I am Ada, ada@example.com")])
                (Ok {| ContestDecision.nextsteps := "Good luck!";
                       ContestDecision.decision := "ConfirmAppointment";
                       ContestDecision.timeslot := None;
                       ContestDecision.email := None;
                       ContestDecision.name := None |})
      :: Called (BookAppointment None None) (Ok (VStr "Appointment booked"))
      :: rest /\
    rest =
      [Called (OpenRead "contesturl.txt") (Ok "https://example.com/intake");
       Called (SendEmail "malihajburney@gmail.com" None
                 "Please complete the SPIF/Sales Contest Intake Form"
                 "<p>https://example.com/intake</p>") (Ok tt)].
Proof.
  destruct (confirm_appointment_no_presence_check
              (model "contest" "Leave of absence" "ConfirmAppointment" false)
              question 0 1 2 3
              [SystemMessage ContestAgent.contest_prompt;
               HumanMessage (VStr "I am Ada, ada@example.com")]
              {| ContestDecision.nextsteps := "Good luck!";
                 ContestDecision.decision := "ConfirmAppointment";
                 ContestDecision.timeslot := None;
                 ContestDecision.email := None;
                 ContestDecision.name := None |}
              (Ok (VStr "Appointment booked"))
              eq_refl eq_refl eq_refl eq_refl) as (rest & Htrace & Hrest).
  exists rest. split; [exact Htrace|].
  exact (Hrest (VStr "Appointment booked") "https://example.com/intake"
               4 (Ok tt) 5 eq_refl eq_refl eq_refl).
Defined.

Lemma ticket_agent_email_iff_createTicket_witness :
  run (model "ticket" "Leave of absence" "Other" true)
      (TicketAgent.ticket_agent question) 0
  = (Ok {[ "lnode" := VStr "ticket_agent";
           "responseToUser" := VStr "Thank you Ada.";
           "category" := VStr "ticket" ]},
     5,
     [Called (CreateLlmMessage
                (TicketAgent.ticket_prompt
                   (VStr "What is minimum commission guarantee?")))
             (Ok [SystemMessage
                    (TicketAgent.ticket_prompt
                       (VStr "What is minimum commission guarantee?"));
                  HumanMessage (VStr "I am Ada, ada@example.com")]);
      Called (StructuredInvoke TicketResponse_
                [SystemMessage
                   (TicketAgent.ticket_prompt
                      (VStr "What is minimum commission guarantee?"));
                 HumanMessage (VStr "I am Ada, ada@example.com")])
             (Ok {| TicketResponse.response := "Thank you Ada.";
                    TicketResponse.createTicket := true |});
      Called (CreateLlmMessage TicketAgent.ticket_email_prompt)
             (Ok [SystemMessage TicketAgent.ticket_email_prompt;
                  HumanMessage (VStr "I am Ada, ada@example.com")]);
      Called (StructuredInvoke TicketEmail_
                [SystemMessage TicketAgent.ticket_email_prompt;
                 HumanMessage (VStr "I am Ada, ada@example.com")])
             (Ok {| TicketEmail.response := "drafted";
                    TicketEmail.htmlEmail :=
                      "<p>Ada, ada@example.com: payout missing</p>" |});
      Called (SendEmail "malihajburney@gmail.com"
                (Some "i_jahangir@hotmail.com")
                "New Ticket from SalesCompAgent"
                "<p>Ada, ada@example.com: payout missing</p>") (Ok tt)]) /\
  emails (snd (run (model "ticket" "Leave of absence" "Other" false)
                   (TicketAgent.ticket_agent question) 0)) = [].
Proof.
  split.
  - apply (proj1 (proj2
             (ticket_agent_email_iff_createTicket
                (model "ticket" "Leave of absence" "Other" true)
                question 0 1 2
                [SystemMessage
                   (TicketAgent.ticket_prompt
                      (VStr "What is minimum commission guarantee?"));
                 HumanMessage (VStr "I am Ada, ada@example.com")]
                {| TicketResponse.response := "Thank you Ada.";
                   TicketResponse.createTicket := true |}
                eq_refl eq_refl))
             eq_refl
             [SystemMessage TicketAgent.ticket_email_prompt;
              HumanMessage (VStr "I am Ada, ada@example.com")]
             3
             {| TicketEmail.response := "drafted";
                TicketEmail.htmlEmail :=
                  "<p>Ada, ada@example.com: payout missing</p>" |}
             4 5 eq_refl eq_refl eq_refl).
  - rewrite (proj1
               (ticket_agent_email_iff_createTicket
                  (model "ticket" "Leave of absence" "Other" false)
                  question 0 1 2
                  [SystemMessage
                     (TicketAgent.ticket_prompt
                        (VStr "What is minimum commission guarantee?"));
                   HumanMessage (VStr "I am Ada, ada@example.com")]
                  {| TicketResponse.response := "Thank you Ada.";
                     TicketResponse.createTicket := false |}
                  eq_refl eq_refl) eq_refl).
    reflexivity.
Defined.



Lemma initialMessage_immutable_witness :
  exists state' t,
    run (model "policy" "Leave of absence" "Other" false)
        (conversation [Classifier; Router; Policy] question) 0
      = (Ok state', 2, t) /\
    state' !! "initialMessage"
      = Some (VStr "What is minimum commission guarantee?").
Proof.
  eexists _, _. split; [reflexivity|].
  transitivity (question !! "initialMessage"); [|reflexivity].
  eapply (proj2 (initialMessage_immutable
                   (model "policy" "Leave of absence" "Other" false))
                [Classifier; Router; Policy] question 0).
  reflexivity.
Defined.

(** ** More runs in the concrete environment *)

Lemma initial_classifier_passes_category_on_witness :
  run (model "refund" "Leave of absence" "Other" false)
      (salesCompAgent.initial_classifier question) 0
  = (Ok {[ "lnode" := VStr "initial_classifier";
           "responseToUser" := VStr "Classifier successful";
           "category" := VStr "refund" ]},
     1,
     [Printed "initial classifier";
      Called (StructuredInvoke Category_
                [SystemMessage salesCompAgent.classifier_prompt;
                 HumanMessage (VStr "What is minimum commission guarantee?")])
             (Ok {| Category.category := "refund" |});
      Printed "category is refund"]).
Proof.
  apply (proj2 (initial_classifier_passes_category_on _ question 0 1 _ _)).
  exists "What is minimum commission guarantee?".
  exists {| Category.category := "refund" |}.
  repeat split; reflexivity.
Defined.

Lemma graph_handlers_need_initialMessage_witness :
  run (model "policy" "Leave of absence" "Other" false)
      (salesCompAgent.policy_agent ∅) 0
  = (Err (KeyError "initialMessage"), 0, [Printed "policy agent"]).
Proof.
  apply (graph_handlers_need_initialMessage
           (model "policy" "Leave of absence" "Other" false) ∅ 0).
  reflexivity.
Defined.

Lemma main_router_needs_category_witness :
  run (model "policy" "Leave of absence" "Other" false)
      (salesCompAgent.main_router question) 0
  = (Err (KeyError "category"), 0, []).
Proof.
  apply (main_router_needs_category
           (model "policy" "Leave of absence" "Other" false) question 0).
  reflexivity.
Defined.

Lemma main_router_returns_registered_node_witness :
  VStr "ticket" = VStr END \/
  exists key, VStr "ticket" = VStr key /\ key <> END /\
              is_Some (StateGraph.nodes salesCompAgent.graph !! key).
Proof.
  apply (main_router_returns_registered_node
           (model "policy" "Leave of absence" "Other" false)
           {[ "category" := VStr "ticket" ]} 0 0 (VStr "ticket") []).
  reflexivity.
Defined.

(** The decision is matched exactly: a different capitalisation is none of
    the two. *)
Lemma contest_agent_other_decisions_witness :
  run (model "contest" "Leave of absence" "bookappointment" false)
      (ContestAgent.contest_agent question) 0
  = (Ok {[ "lnode" := VStr "contest_agent";
           "responseToUser" := VStr "Good luck!";
           "category" := VStr "contest" ]},
     2,
     [Called (CreateLlmMessage ContestAgent.contest_prompt)
             (Ok [SystemMessage ContestAgent.contest_prompt;
                  HumanMessage (VStr "I am Ada, ada@example.com")]);
      Called (StructuredInvoke ContestDecision_
                [SystemMessage ContestAgent.contest_prompt;
                 HumanMessage (VStr "I am Ada, ada@example.com")])
             (Ok {| ContestDecision.nextsteps := "Good luck!";
                    ContestDecision.decision := "bookappointment";
                    ContestDecision.timeslot := None;
                    ContestDecision.email := None;
                    ContestDecision.name := None |})]).
Proof.
  apply (contest_agent_other_decisions
           (model "contest" "Leave of absence" "bookappointment" false)
           question 0 1 2
           [SystemMessage ContestAgent.contest_prompt;
            HumanMessage (VStr "I am Ada, ada@example.com")]
           {| ContestDecision.nextsteps := "Good luck!";
              ContestDecision.decision := "bookappointment";
              ContestDecision.timeslot := None;
              ContestDecision.email := None;
              ContestDecision.name := None |});
    [reflexivity|reflexivity|discriminate|discriminate].
Defined.

Lemma contest_agent_confirm_appointment_witness :
  exists t,
    run (model "contest" "Leave of absence" "ConfirmAppointment" false)
        (ContestAgent.contest_agent question) 0
    = (Ok {[ "lnode" := VStr "contest_agent";
             "responseToUser" := VStr "Appointment booked";
             "category" := VStr "contest" ]}, 5, t).
Proof.
  eexists.
  apply (contest_agent_confirm_appointment
           (model "contest" "Leave of absence" "ConfirmAppointment" false)
           question 0 1 2 3 4 5
           [SystemMessage ContestAgent.contest_prompt;
            HumanMessage (VStr "I am Ada, ada@example.com")]
           {| ContestDecision.nextsteps := "Good luck!";
              ContestDecision.decision := "ConfirmAppointment";
              ContestDecision.timeslot := None;
              ContestDecision.email := None;
              ContestDecision.name := None |}
           (VStr "Appointment booked") "https://example.com/intake");
    reflexivity.
Defined.

(** contesturl.txt is missing: the appointment has been booked when the
    handler fails. *)
Lemma contest_agent_confirm_failures_witness :
  run (failing (fun c => match c with
                         | OpenRead _ => Some (Raised "FileNotFoundError")
                         | _ => None
                         end)
               (answers "contest" "Leave of absence" "ConfirmAppointment"
                        false))
      (ContestAgent.contest_agent question) 0
  = (Err (Raised "FileNotFoundError"), 4,
     [Called (CreateLlmMessage ContestAgent.contest_prompt)
             (Ok [SystemMessage ContestAgent.contest_prompt;
                  HumanMessage (VStr "I am Ada, ada@example.com")]);
      Called (StructuredInvoke ContestDecision_
                [SystemMessage ContestAgent.contest_prompt;
                 HumanMessage (VStr "I am Ada, ada@example.com")])
             (Ok {| ContestDecision.nextsteps := "Good luck!";
                    ContestDecision.decision := "ConfirmAppointment";
                    ContestDecision.timeslot := None;
                    ContestDecision.email := None;
                    ContestDecision.name := None |});
      Called (BookAppointment None None) (Ok (VStr "Appointment booked"));
      Called (OpenRead "contesturl.txt") (Err (Raised "FileNotFoundError"))]).
Proof.
  apply (proj1 (proj2
           (contest_agent_confirm_failures
              (failing (fun c => match c with
                                 | OpenRead _ => Some (Raised "FileNotFoundError")
                                 | _ => None
                                 end)
                       (answers "contest" "Leave of absence"
                                "ConfirmAppointment" false))
              question 0 1 2 3
              [SystemMessage ContestAgent.contest_prompt;
               HumanMessage (VStr "I am Ada, ada@example.com")]
              {| ContestDecision.nextsteps := "Good luck!";
                 ContestDecision.decision := "ConfirmAppointment";
                 ContestDecision.timeslot := None;
                 ContestDecision.email := None;
                 ContestDecision.name := None |}
              (Raised "FileNotFoundError")
              eq_refl eq_refl eq_refl))
           (VStr "Appointment booked") 4 eq_refl eq_refl).
Defined.

Lemma ticket_agent_tolerates_missing_message_witness :
  run (model "ticket" "Leave of absence" "Other" false)
      (TicketAgent.ticket_agent ∅) 0
  = run (model "ticket" "Leave of absence" "Other" false)
        (TicketAgent.ticket_agent {[ "initialMessage" := VStr "" ]}) 0.
Proof.
  apply (proj1 (ticket_agent_tolerates_missing_message
                  (model "ticket" "Leave of absence" "Other" false) ∅ 0)).
  reflexivity.
Defined.

(** The mailer is down: the ticket handler returns nothing. *)
Lemma ticket_agent_create_ticket_failures_witness :
  exists t,
    run (failing (fun c => match c with
                           | SendEmail _ _ _ _ => Some (Raised "SMTPException")
                           | _ => None
                           end)
                 (answers "ticket" "Leave of absence" "Other" true))
        (TicketAgent.ticket_agent question) 0
    = (Err (Raised "SMTPException"), 5, t).
Proof.
  eexists.
  apply (proj2
           (ticket_agent_create_ticket_failures
              (failing (fun c => match c with
                                 | SendEmail _ _ _ _ =>
                                     Some (Raised "SMTPException")
                                 | _ => None
                                 end)
                       (answers "ticket" "Leave of absence" "Other" true))
              question 0 1 2 3
              [SystemMessage
                 (TicketAgent.ticket_prompt
                    (VStr "What is minimum commission guarantee?"));
               HumanMessage (VStr "I am Ada, ada@example.com")]
              [SystemMessage TicketAgent.ticket_email_prompt;
               HumanMessage (VStr "I am Ada, ada@example.com")]
              {| TicketResponse.response := "Thank you Ada.";
                 TicketResponse.createTicket := true |}
              (Raised "SMTPException")
              eq_refl eq_refl eq_refl eq_refl)
           {| TicketEmail.response := "drafted";
              TicketEmail.htmlEmail :=
                "<p>Ada, ada@example.com: payout missing</p>" |}
           4 5 eq_refl eq_refl).
Defined.

Lemma writers_set_core_keys_witness :
  exists upd,
    Some ({[ "lnode" := VStr "contest_agent";
             "responseToUser" :=
               VStr "Mon 10:00 or Tue 14:00. Please choose a time slot.";
             "category" := VStr "contest";
             "name" := VNone;
             "email" := VNone ]} : update) = Some upd /\
    (dom upd = core_keys \/ dom upd = core_keys ∪ contact_keys).
Proof.
  eapply (writers_set_core_keys
            (model "contest" "Leave of absence" "BookAppointment" false)
            Contest question 0).
  reflexivity.
Defined.

Lemma invoke_policy_path_witness :
  exists final t,
    run (model "policy" "Leave of absence" "Other" false)
        (StateGraph.invoke salesCompAgent.graph question) 0
      = (Ok final, 2, t) /\
    final !! "category" = Some (VStr "Leave of absence") /\
    final !! "initialMessage"
      = Some (VStr "What is minimum commission guarantee?").
Proof.
  destruct (invoke_policy_path
              (model "policy" "Leave of absence" "Other" false)
              question 0 1 2 "What is minimum commission guarantee?"
              {| Category.category := "policy" |}
              {| PolicyResponse.policy := "Leave of absence";
                 PolicyResponse.response := "You are guaranteed a minimum." |}
              eq_refl eq_refl eq_refl eq_refl)
    as (final & Hrun & Hcat & _ & Hmsg).
  exists final. eexists. split; [exact Hrun|]. split; [exact Hcat|exact Hmsg].
Defined.

Lemma invoke_commission_path_witness :
  exists final t,
    run (model "commission" "Leave of absence" "Other" false)
        (StateGraph.invoke salesCompAgent.graph question) 0
      = (Ok final, 2, t) /\
    final !! "category" = Some (VStr "100000 * 0.05").
Proof.
  destruct (invoke_commission_path
              (model "commission" "Leave of absence" "Other" false)
              question 0 1 2 "What is minimum commission guarantee?"
              {| Category.category := "commission" |}
              {| CommissionResponse.commission := "5000";
                 CommissionResponse.calculation := "100000 * 0.05";
                 CommissionResponse.response := "Your commission is $5000." |}
              eq_refl eq_refl eq_refl eq_refl)
    as (final & Hrun & Hcat & _).
  exists final. eexists. split; [exact Hrun|exact Hcat].
Defined.


Lemma router_after_policy_agent_witness :
  fst (fst (run (model "policy" "contest" "Other" false)
                (u <- salesCompAgent.policy_agent question ;;
                 salesCompAgent.main_router
                   (StateGraph.apply_update (Some u) question)) 0))
  = Ok (VStr "contest").
Proof.
  apply (proj1 (router_after_policy_agent
                  (model "policy" "contest" "Other" false)
                  question 0 1 "What is minimum commission guarantee?"
                  {| PolicyResponse.policy := "contest";
                     PolicyResponse.response :=
                       "You are guaranteed a minimum." |}
                  eq_refl eq_refl)).
  apply list_elem_of_In. cbn. tauto.
Defined.
